(** * Forminator: the batch request engine of [forminator.py]

    A shallow embedding of [encode_image], of the class [APIRequestManager]
    (file collection, per-file processing, response parsing, completion
    tracking, result and token aggregation) and of the methods of
    [MainWindow] that decide what is processed and what is written
    ([scan_files], [validate], [on_complete], [write_csv]), with the
    properties the specification states about them and further properties
    read off the code.

    Conventions of the embedding.
    - A Python [str] is a Rocq [string]: one character per code point, code
      points below 256.
    - A decoded JSON document is a [pyval].  JSON numbers are Python [int]s;
      numbers with a fraction or an exponent (Python [float]s) are outside
      the embedding.
    - Whatever the program asks of its environment (directory listing, file
      contents, the HTTPS request with the decoding of its body, and
      [json.loads]) is a field of a [world]; theorems quantify over worlds.
    - Observable effects ([print], the two callbacks) are appended, in the
      order they happen, to the trace [out] of the state.
    - The completion callback is the caller's: whether it returns or raises
      on the results and totals it is given is a field of the [world] too.
      In the program it is [MainWindow.on_complete], which raises when
      [write_csv] does.  The progress callback of the program is
      [MainWindow.on_progress], a [print].
    - Paths are POSIX paths. *)

From Stdlib Require Import String Ascii List ZArith NArith Lia Bool Arith PeanoNat.
From Stdlib Require Import DecimalString.
Import ListNotations.
Open Scope string_scope.

(** ** Python values, exceptions, results *)

Set Warnings "-register-all".

Inductive pyval : Type :=
| PNone
| PBool (b : bool)
| PInt (z : Z)
| PStr (s : string)
| PList (l : list pyval)
| PDict (d : list (string * pyval)).

(** A subscript: a string key or an index from the front. *)
Inductive key : Type :=
| KStr (k : string)
| KInt (i : nat).

Inductive exn : Type :=
| KeyError (k : key)
| IndexError
| TypeError
| AttributeError
| OSError
| JSONDecodeError
| OtherError (name : string).

Inductive res (A : Type) : Type :=
| Ok (a : A)
| Raise (e : exn).
Arguments Ok {A} a.
Arguments Raise {A} e.

(** ** The [str] methods the program calls *)

Module Str.

Definition chr (n : nat) : ascii := ascii_of_nat n.
Definition ord (c : ascii) : nat := nat_of_ascii c.

(** [s.startswith(p)] *)
Fixpoint startswith (s p : string) {struct p} : bool :=
  match p, s with
  | EmptyString, _ => true
  | String _ _, EmptyString => false
  | String a p', String b s' => Ascii.eqb a b && startswith s' p'
  end.

(** [s[n:]] *)
Fixpoint drop (n : nat) (s : string) : string :=
  match n, s with
  | 0, _ => s
  | S _, EmptyString => EmptyString
  | S k, String _ s' => drop k s'
  end.

(** [s.endswith(suf)]: the last [len(suf)] characters of [s] are [suf]. *)
Definition endswith (s suf : string) : bool :=
  (String.length suf <=? String.length s)%nat
  && String.eqb (drop (String.length s - String.length suf) s) suf.

(** [s.find(sep)] as the pair (text before, text after) of the leftmost
    occurrence of [sep], for a non-empty [sep]. *)
Fixpoint partition (sep s : string) : option (string * string) :=
  if startswith s sep then Some (EmptyString, drop (String.length sep) s)
  else match s with
       | EmptyString => None
       | String c s' =>
           match partition sep s' with
           | Some (a, b) => Some (String c a, b)
           | None => None
           end
       end.

(** [s.split(sep, maxsplit)] for a non-empty [sep] and [maxsplit >= 0]: cut
    at the leftmost occurrences, at most [maxsplit] times. *)
Fixpoint split (sep : string) (maxsplit : nat) (s : string) : list string :=
  match maxsplit with
  | 0 => [s]
  | S m =>
      match partition sep s with
      | None => [s]
      | Some (a, b) => a :: split sep m b
      end
  end.

(** [c.isspace()] on code points below 256. *)
Definition isspace (c : ascii) : bool :=
  let n := ord c in
  ((9 <=? n) && (n <=? 13) || (28 <=? n) && (n <=? 32)
   || (n =? 133) || (n =? 160))%nat.

Definition mem (c : ascii) (chars : string) : bool :=
  existsb (Ascii.eqb c) (list_ascii_of_string chars).

(** Drop the leading characters that satisfy [p]. *)
Fixpoint dropwhile (p : ascii -> bool) (s : string) : string :=
  match s with
  | EmptyString => EmptyString
  | String c s' => if p c then dropwhile p s' else s
  end.

(** Drop the trailing characters that satisfy [p]. *)
Fixpoint dropwhile_end (p : ascii -> bool) (s : string) : string :=
  match s with
  | EmptyString => EmptyString
  | String c s' =>
      match dropwhile_end p s' with
      | EmptyString => if p c then EmptyString else String c EmptyString
      | r => String c r
      end
  end.

(** [s.strip()] *)
Definition strip (s : string) : string :=
  dropwhile_end isspace (dropwhile isspace s).

(** [s.lstrip(chars)]: [chars] is a set of characters, not a prefix. *)
Definition lstrip (chars s : string) : string :=
  dropwhile (fun c => mem c chars) s.

(** [c.lower()] on code points below 256. *)
Definition lower_char (c : ascii) : ascii :=
  let n := ord c in
  if ((65 <=? n) && (n <=? 90)
      || (192 <=? n) && (n <=? 222) && negb (n =? 215))%nat
  then chr (n + 32) else c.

(** [s.lower()] *)
Fixpoint lower (s : string) : string :=
  match s with
  | EmptyString => EmptyString
  | String c s' => String (lower_char c) (lower s')
  end.

(** [s.rfind(".")]: index of the last dot. *)
Fixpoint rfind_dot (s : string) : option nat :=
  match s with
  | EmptyString => None
  | String c s' =>
      match rfind_dot s' with
      | Some i => Some (S i)
      | None => if Ascii.eqb c "."%char then Some 0 else None
      end
  end.

End Str.

(** [os.path.join(directory, file)] for a [file] without a slash. *)
Definition path_join (directory file : string) : string :=
  if String.eqb directory EmptyString then file
  else if Str.endswith directory "/" then directory ++ file
  else directory ++ "/" ++ file.

(** [pathlib.Path(name).suffix] for a directory entry [name]. *)
Definition suffix (name : string) : string :=
  match Str.rfind_dot name with
  | Some i =>
      if ((0 <? i) && (i <? String.length name - 1))%nat
      then Str.drop i name else EmptyString
  | None => EmptyString
  end.

Definition nl : string := String (Str.chr 10) EmptyString.
Definition fence : string := "```".


(** ** [base64.b64encode] *)

Module Base64.

Definition alphabet : string :=
  "ABCDEFGHIJKLMNOPQRSTUVWXYZabcdefghijklmnopqrstuvwxyz0123456789+/".

(** The digit of the low six bits of [n]. *)
Definition digit (n : N) : ascii :=
  match String.get (N.to_nat (N.land n 63)) alphabet with
  | Some c => c
  | None => "="%char
  end.

Definition byte (c : ascii) : N := N_of_ascii c.

(** Three bytes give four digits; one or two trailing bytes are padded
    with [=]. *)
Fixpoint b64encode (bytes : string) : string :=
  match bytes with
  | EmptyString => EmptyString
  | String a EmptyString =>
      let n := N.shiftl (byte a) 16 in
      String (digit (N.shiftr n 18)) (String (digit (N.shiftr n 12)) "==")
  | String a (String b EmptyString) =>
      let n := N.lor (N.shiftl (byte a) 16) (N.shiftl (byte b) 8) in
      String (digit (N.shiftr n 18))
        (String (digit (N.shiftr n 12)) (String (digit (N.shiftr n 6)) "="))
  | String a (String b (String c rest)) =>
      let n :=
        N.lor (N.lor (N.shiftl (byte a) 16) (N.shiftl (byte b) 8)) (byte c) in
      String (digit (N.shiftr n 18))
        (String (digit (N.shiftr n 12))
           (String (digit (N.shiftr n 6)) (String (digit n) (b64encode rest))))
  end.

End Base64.

(** ** Subscripting and arithmetic on Python values *)

Fixpoint dict_get (d : list (string * pyval)) (k : string) : option pyval :=
  match d with
  | [] => None
  | (k', v) :: d' => if String.eqb k' k then Some v else dict_get d' k
  end.

(** [v[k]].  A [dict] decoded from JSON has string keys only, so an integer
    subscript of a dict is a [KeyError]; a list or a string takes integer
    subscripts only; the other values are not subscriptable. *)
Definition getitem (v : pyval) (k : key) : res pyval :=
  match v, k with
  | PDict d, KStr s =>
      match dict_get d s with Some x => Ok x | None => Raise (KeyError k) end
  | PDict _, KInt _ => Raise (KeyError k)
  | PList l, KInt i =>
      match nth_error l i with Some x => Ok x | None => Raise IndexError end
  | PStr s, KInt i =>
      match String.get i s with
      | Some c => Ok (PStr (String c EmptyString))
      | None => Raise IndexError
      end
  | _, _ => Raise TypeError
  end.

(** [n + v] for an [int] n: [bool] is a subclass of [int]. *)
Definition int_add (n : Z) (v : pyval) : res Z :=
  match v with
  | PInt z => Ok (n + z)%Z
  | PBool b => Ok (n + (if b then 1 else 0))%Z
  | _ => Raise TypeError
  end.

(** Truth value of [v], as [or] tests it. *)
Definition truthy (v : pyval) : bool :=
  match v with
  | PNone => false
  | PBool b => b
  | PInt z => negb (z =? 0)%Z
  | PStr s => negb (String.eqb s EmptyString)
  | PList l => match l with [] => false | _ => true end
  | PDict d => match d with [] => false | _ => true end
  end.

(** [v.split(sep, maxsplit)]: only a [str] has the method. *)
Definition py_split (v : pyval) (sep : string) (maxsplit : nat)
  : res (list string) :=
  match v with
  | PStr s => Ok (Str.split sep maxsplit s)
  | _ => Raise AttributeError
  end.

(** [l[i]] on the list a split returns. *)
Definition list_item {A : Type} (l : list A) (i : nat) : res A :=
  match nth_error l i with Some x => Ok x | None => Raise IndexError end.

(** Evaluation left to right: the first exception ends it. *)
Definition and_then {A B : Type} (r : res A) (k : A -> res B) : res B :=
  match r with
  | Ok a => k a
  | Raise e => Raise e
  end.

(** [result["choices"][0]["message"]["content"]] *)
Definition message_content (result : pyval) : res pyval :=
  and_then (getitem result (KStr "choices")) (fun choices =>
  and_then (getitem choices (KInt 0)) (fun choice =>
  and_then (getitem choice (KStr "message")) (fun msg =>
  getitem msg (KStr "content")))).

(** ** The program's constants *)

Definition dq : string := String (Str.chr 34) EmptyString.

(** [PROMPT], cut at its placeholder. *)
Definition PROMPT_head : string :=
"
Parse the information in the form represented by the attached image and return the results as a JSON object.
The form contains the following fields which should be mapped to the corresponding keys in the JSON object:
    First Name -> first_name
    Last Name -> last_name
    Email -> email
    Mobile -> mobile
    Address -> address
    City -> city
    State -> state
    Zip -> zip
    Newsletter -> newsletter
    Free Seminar Invitations -> free_seminar_invitations
    Consultation Appointment -> consultation_appointment
    Speaker for my group -> speaker_for_my_group

The newsletter, free_seminar_invitations, consultation_appointment, and speaker_for_my_group fields are checkboxes on the form.
If the field is checked, use a value of true and if not, use a value of false.

Also include a field called 'image' which contains the name of the image file and a field called 'confidence'
which contains the confidence score of the extracted information. You may use whatever method you prefer to
define the confidence score so long as a low score indicates low confidence in the extracted information.

If information is blank for a form field value, use an empty string for the value. If information is not blank
but is not legible, use " ++ dq ++ "ERROR" ++ dq ++ " as the value.

The image file name is ".

Definition PROMPT_tail : string :=
". Please extract the information from this image and return it as a JSON object.
".

(** [PROMPT.format(file)] *)
Definition PROMPT_format (file : string) : string :=
  PROMPT_head ++ file ++ PROMPT_tail.

(** ** The environment *)

(** What [requests.post] is called with. *)
Record request : Type := {
  url : string;
  content_type : string;
  authorization : string;
  model : string;
  text : string;
  image_url : string;
  max_tokens : Z
}.

(** [self.tokens] *)
Record tally : Type := {
  prompt_tokens : Z;
  completion_tokens : Z
}.

(** The calls that leave the program.  [http_post] stands for
    [requests.post(...)] followed by [response.json()]: it raises when either
    does, and otherwise gives the decoded body, whatever the status code.
    [callback_outcome results tokens] is what the call
    [completion_callback(results, tokens)] does: it returns, or it raises. *)
Record world : Type := {
  listdir : string -> res (list string);
  read_file : string -> res string;
  http_post : request -> res pyval;
  json_loads : string -> res pyval;
  callback_outcome : list pyval -> tally -> res unit
}.

(** ** Observable effects *)

(** The text of a message: a plain string, [str(v)] of a value, or a string
    followed by [": "] and the text of an exception. *)
Inductive message : Type :=
| Lit (s : string)
| StrOf (v : pyval)
| WithExn (s : string) (e : exn).

Inductive event : Type :=
| Print (m : message)
| Progress (m : message)
| Completion (results : list pyval) (tokens : tally).

(** ** The state of an [APIRequestManager], with the trace of its effects *)

Record manager : Type := {
  directory : string;
  api_key : string;
  completed_requests : nat;
  num_requests : nat;
  files : list string;
  results : list pyval;
  tokens : tally;
  out : list event
}.

Definition emit (e : event) (s : manager) : manager :=
  {| directory := directory s; api_key := api_key s;
     completed_requests := completed_requests s;
     num_requests := num_requests s; files := files s;
     results := results s; tokens := tokens s; out := out s ++ [e] |}.

Definition set_completed_requests (n : nat) (s : manager) : manager :=
  {| directory := directory s; api_key := api_key s;
     completed_requests := n;
     num_requests := num_requests s; files := files s;
     results := results s; tokens := tokens s; out := out s |}.

Definition set_num_requests (n : nat) (s : manager) : manager :=
  {| directory := directory s; api_key := api_key s;
     completed_requests := completed_requests s;
     num_requests := n; files := files s;
     results := results s; tokens := tokens s; out := out s |}.

Definition set_files (l : list string) (s : manager) : manager :=
  {| directory := directory s; api_key := api_key s;
     completed_requests := completed_requests s;
     num_requests := num_requests s; files := l;
     results := results s; tokens := tokens s; out := out s |}.

Definition set_results (l : list pyval) (s : manager) : manager :=
  {| directory := directory s; api_key := api_key s;
     completed_requests := completed_requests s;
     num_requests := num_requests s; files := files s;
     results := l; tokens := tokens s; out := out s |}.

Definition set_tokens (t : tally) (s : manager) : manager :=
  {| directory := directory s; api_key := api_key s;
     completed_requests := completed_requests s;
     num_requests := num_requests s; files := files s;
     results := results s; tokens := t; out := out s |}.

(** ** Statements that read and write the state and may raise *)

Definition M (A : Type) : Type := manager -> res A * manager.

Definition ret {A : Type} (a : A) : M A := fun s => (Ok a, s).

Definition bind {A B : Type} (m : M A) (k : A -> M B) : M B :=
  fun s =>
    match m s with
    | (Ok a, s') => k a s'
    | (Raise e, s') => (Raise e, s')
    end.

Notation "x <- m ;; k" := (bind m (fun x => k))
  (at level 61, m at next level, right associativity).
Notation "m ;;; k" := (bind m (fun _ => k))
  (at level 61, right associativity).

(** The value of an expression that may raise. *)
Definition eval {A : Type} (r : res A) : M A := fun s => (r, s).

Definition get {A : Type} (f : manager -> A) : M A := fun s => (Ok (f s), s).

Definition modify (f : manager -> manager) : M unit := fun s => (Ok tt, f s).

(** [try: body  except <the exceptions h accepts> as e: h e]; an exception
    [h] maps to [None] is not caught.  The state a raising body leaves is
    kept. *)
Definition try_except {A : Type} (body : M A) (h : exn -> option (M A)) : M A :=
  fun s =>
    match body s with
    | (Ok a, s') => (Ok a, s')
    | (Raise e, s') =>
        match h e with
        | Some handler => handler s'
        | None => (Raise e, s')
        end
    end.

(** [for x in l: body x] *)
Fixpoint for_each {A : Type} (l : list A) (body : A -> M unit) : M unit :=
  match l with
  | [] => ret tt
  | x :: l' => body x ;;; for_each l' body
  end.

(** [print(m)] *)
Definition print (m : message) : M unit := modify (emit (Print m)).

(** [self.progress_callback(m)]; in the program the callback is
    [MainWindow.on_progress], which prints its argument. *)
Definition progress_callback (m : message) : M unit :=
  modify (emit (Progress m)).

(** ** [forminator.py] *)

Section Forminator.

Variable W : world.

(** [encode_image(image_path)]: [open] or [read] may raise. *)
Definition encode_image (image_path : string) : M string :=
  bytes <- eval (read_file W image_path) ;;
  ret (Base64.b64encode bytes).

(** [self.completion_callback(self.results, self.tokens)]: the call is
    recorded in the trace, and returns or raises as the callback does. *)
Definition completion_callback : M unit :=
  fun s =>
    (callback_outcome W (results s) (tokens s),
     emit (Completion (results s) (tokens s)) s).

(** [APIRequestManager.request_complete]; the lock is taken by the one
    thread that runs the batch, and released when the callback raises. *)
Definition request_complete (result : message) : M unit :=
  print result ;;;
  modify (fun s => set_completed_requests (completed_requests s + 1) s) ;;;
  completed <- get completed_requests ;;
  expected <- get num_requests ;;
  if Nat.eqb completed expected then completion_callback else ret tt.

(** [APIRequestManager.parse_openai_json_result]; the value [PNone] is
    Python's [None], returned after a [JSONDecodeError] (and when the text
    decodes to [null]). *)
Definition parse_openai_json_result (result : pyval) : M pyval :=
  content <- eval (message_content result) ;;
  parts <- eval (py_split content fence 2) ;;
  part <- eval (list_item parts 1) ;;
  let json_str := Str.strip part in
  let json_str := Str.lstrip ("json" ++ nl) json_str in
  try_except
    (eval (json_loads W json_str))
    (fun e =>
       match e with
       | JSONDecodeError =>
           Some (print (WithExn "Error parsing JSON" e) ;;; ret PNone)
       | _ => None
       end).

(** The test of [APIRequestManager.collect_files]. *)
Definition is_image_name (file : string) : bool :=
  Str.endswith file ".jpg" || Str.endswith file ".jpeg"
  || Str.endswith file ".png".

(** [APIRequestManager.collect_files] *)
Definition collect_files : M unit :=
  dir <- get directory ;;
  entries <- eval (listdir W dir) ;;
  for_each entries
    (fun file =>
       if is_image_name file
       then modify (fun s => set_files (files s ++ [file]) s)
       else ret tt) ;;;
  modify (fun s => set_num_requests (List.length (files s)) s).

(** The fields [__init__] sets before it collects the files. *)
Definition blank (dir key : string) : manager :=
  {| directory := dir; api_key := key;
     completed_requests := 0; num_requests := 0;
     files := []; results := [];
     tokens := {| prompt_tokens := 0; completion_tokens := 0 |};
     out := [] |}.

(** [APIRequestManager.__init__] *)
Definition __init__ (dir key : string) : res unit * manager :=
  collect_files (blank dir key).

(** [APIRequestManager.process_result] *)
Definition process_result (image_path : string) (result : pyval) : M unit :=
  usage <- eval (getitem result (KStr "usage")) ;;
  reported <- eval (getitem usage (KStr "completion_tokens")) ;;
  t <- get tokens ;;
  n <- eval (int_add (completion_tokens t) reported) ;;
  modify (set_tokens {| prompt_tokens := prompt_tokens t;
                        completion_tokens := n |}) ;;;
  usage <- eval (getitem result (KStr "usage")) ;;
  reported <- eval (getitem usage (KStr "prompt_tokens")) ;;
  t <- get tokens ;;
  n <- eval (int_add (prompt_tokens t) reported) ;;
  modify (set_tokens {| prompt_tokens := n;
                        completion_tokens := completion_tokens t |}) ;;;
  content <- parse_openai_json_result result ;;
  let content := if truthy content then content else PDict [] in
  modify (fun s => set_results (results s ++ [content]) s) ;;;
  progress_callback (StrOf content).

(** The request [process_image] sends. *)
Definition build_request (key prompt base64_image : string) : request :=
  {| url := "https://api.openai.com/v1/chat/completions";
     content_type := "application/json";
     authorization := "Bearer " ++ key;
     model := "gpt-4o";
     text := prompt;
     image_url := "data:image/jpeg;base64," ++ base64_image;
     max_tokens := 300 |}.

(** [APIRequestManager.process_image]: the image is encoded before the
    [try]; every exception raised inside the [try] is handled. *)
Definition process_image (image_path prompt : string) : M unit :=
  base64_image <- encode_image image_path ;;
  key <- get api_key ;;
  let payload := build_request key prompt base64_image in
  try_except
    (response <- eval (http_post W payload) ;;
     process_result image_path response ;;;
     request_complete (Lit ("Processed image " ++ image_path)))
    (fun e =>
       Some (print (WithExn ("Error processing image " ++ image_path) e) ;;;
             request_complete (Lit ("Error processing image " ++ image_path)))).

(** The body of the loop of [_process_files]. *)
Definition process_file (file : string) : M unit :=
  dir <- get directory ;;
  let image_path := path_join dir file in
  let prompt := PROMPT_format file in
  progress_callback (Lit ("Processing " ++ file ++ "...")) ;;;
  process_image image_path prompt.

(** [APIRequestManager._process_files] *)
Definition _process_files : M unit :=
  l <- get files ;;
  for_each l process_file.

(** [MainWindow.scan_files], for a non-empty [directory]: the paths its
    loop leaves in [self.files]. *)
Definition scan_files (dir : string) : res (list string) :=
  match listdir W dir with
  | Raise e => Raise e
  | Ok entries =>
      Ok (fold_left
            (fun (found : list string) (file : string) =>
               let suf := Str.lower (suffix file) in
               if String.eqb suf ".jpg" || String.eqb suf ".jpeg"
                  || String.eqb suf ".png"
               then (found ++ [path_join dir file])%list
               else found)
            entries [])
  end.

End Forminator.

(** ** A reference decoder, to build concrete worlds

    [Json.loads] decodes the JSON texts made of objects, arrays, strings
    with the short escapes, integers and the three literals, the way
    [json.loads] does (leftmost key order, the last of two equal keys wins,
    control characters refused inside strings); it refuses the texts whose
    values lie outside the embedding (fractions, exponents, [\u] escapes).
    The theorems below hold for every world; this decoder only serves to
    exhibit some. *)

Module Json.

Definition is_ws (c : ascii) : bool :=
  let n := Str.ord c in ((n =? 32) || (n =? 9) || (n =? 10) || (n =? 13))%nat.

Definition skip_ws (s : string) : string := Str.dropwhile is_ws s.

Definition is_digit (c : ascii) : bool :=
  let n := Str.ord c in ((48 <=? n) && (n <=? 57))%nat.

(** The character a short escape stands for. *)
Definition unescape (c : ascii) : option ascii :=
  let n := Str.ord c in
  if (n =? 34)%nat then Some c
  else if (n =? 92)%nat then Some c
  else if (n =? 47)%nat then Some c
  else if (n =? 98)%nat then Some (Str.chr 8)
  else if (n =? 102)%nat then Some (Str.chr 12)
  else if (n =? 110)%nat then Some (Str.chr 10)
  else if (n =? 114)%nat then Some (Str.chr 13)
  else if (n =? 116)%nat then Some (Str.chr 9)
  else None.

(** The text of a string up to its closing quote, and what follows. *)
Fixpoint string_body (s : string) : option (string * string) :=
  match s with
  | EmptyString => None
  | String c s' =>
      if (Str.ord c =? 34)%nat then Some (EmptyString, s')
      else if (Str.ord c =? 92)%nat then
        match s' with
        | EmptyString => None
        | String e s'' =>
            match unescape e, string_body s'' with
            | Some ch, Some (body, rest) => Some (String ch body, rest)
            | _, _ => None
            end
        end
      else if (Str.ord c <? 32)%nat then None
      else match string_body s' with
           | Some (body, rest) => Some (String c body, rest)
           | None => None
           end
  end.

(** The digits at the head of [s], read in base ten after [acc]. *)
Fixpoint digits (acc : Z) (s : string) : Z * string :=
  match s with
  | EmptyString => (acc, s)
  | String c s' =>
      if is_digit c
      then digits (10 * acc + Z.of_nat (Str.ord c - 48))%Z s'
      else (acc, s)
  end.

(** [0] or a digit string without a leading zero. *)
Definition natural (s : string) : option (Z * string) :=
  match s with
  | EmptyString => None
  | String c s' =>
      if (Str.ord c =? 48)%nat then Some (0%Z, s')
      else if is_digit c then Some (digits 0 s)
      else None
  end.

(** A number must not go on as a fraction or an exponent. *)
Definition ends_number (s : string) : bool :=
  match s with
  | EmptyString => true
  | String c _ =>
      let n := Str.ord c in negb ((n =? 46) || (n =? 69) || (n =? 101))%nat
  end.

Fixpoint dict_set (d : list (string * pyval)) (k : string) (v : pyval)
  : list (string * pyval) :=
  match d with
  | [] => [(k, v)]
  | (k', v') :: d' =>
      if String.eqb k' k then (k, v) :: d' else (k', v') :: dict_set d' k v
  end.

Fixpoint value (fuel : nat) (s : string) : option (pyval * string) :=
  match fuel with
  | 0 => None
  | S fuel' =>
      match skip_ws s with
      | EmptyString => None
      | String c s' =>
          let n := Str.ord c in
          if (n =? 34)%nat then
            match string_body s' with
            | Some (body, rest) => Some (PStr body, rest)
            | None => None
            end
          else if (n =? 91)%nat then
            match skip_ws s' with
            | String c' rest =>
                if (Str.ord c' =? 93)%nat then Some (PList [], rest)
                else elements fuel' [] s'
            | EmptyString => None
            end
          else if (n =? 123)%nat then
            match skip_ws s' with
            | String c' rest =>
                if (Str.ord c' =? 125)%nat then Some (PDict [], rest)
                else members fuel' [] s'
            | EmptyString => None
            end
          else if (n =? 45)%nat then
            match natural s' with
            | Some (z, rest) =>
                if ends_number rest then Some (PInt (- z), rest) else None
            | None => None
            end
          else if Str.startswith (String c s') "true"
          then Some (PBool true, Str.drop 4 (String c s'))
          else if Str.startswith (String c s') "false"
          then Some (PBool false, Str.drop 5 (String c s'))
          else if Str.startswith (String c s') "null"
          then Some (PNone, Str.drop 4 (String c s'))
          else
            match natural (String c s') with
            | Some (z, rest) =>
                if ends_number rest then Some (PInt z, rest) else None
            | None => None
            end
      end
  end

with elements (fuel : nat) (acc : list pyval) (s : string)
  : option (pyval * string) :=
  match fuel with
  | 0 => None
  | S fuel' =>
      match value fuel' s with
      | None => None
      | Some (v, rest) =>
          match skip_ws rest with
          | String c rest' =>
              if (Str.ord c =? 44)%nat then elements fuel' (acc ++ [v]) rest'
              else if (Str.ord c =? 93)%nat
              then Some (PList (acc ++ [v]), rest')
              else None
          | EmptyString => None
          end
      end
  end

with members (fuel : nat) (acc : list (string * pyval)) (s : string)
  : option (pyval * string) :=
  match fuel with
  | 0 => None
  | S fuel' =>
      match skip_ws s with
      | String q s' =>
          if (Str.ord q =? 34)%nat then
            match string_body s' with
            | None => None
            | Some (k, rest) =>
                match skip_ws rest with
                | String colon rest' =>
                    if (Str.ord colon =? 58)%nat then
                      match value fuel' rest' with
                      | None => None
                      | Some (v, rest'') =>
                          match skip_ws rest'' with
                          | String c after =>
                              if (Str.ord c =? 44)%nat
                              then members fuel' (dict_set acc k v) after
                              else if (Str.ord c =? 125)%nat
                              then Some (PDict (dict_set acc k v), after)
                              else None
                          | EmptyString => None
                          end
                      end
                    else None
                | EmptyString => None
                end
            end
          else None
      | EmptyString => None
      end
  end.

(** The whole text must be one value, white space around it allowed. *)
Definition loads (s : string) : res pyval :=
  match value (2 * String.length s + 2) s with
  | Some (v, rest) =>
      match skip_ws rest with
      | EmptyString => Ok v
      | String _ _ => Raise JSONDecodeError
      end
  | None => Raise JSONDecodeError
  end.

End Json.

(** ** Vocabulary of the statements *)

(** [sep] occurs in [s]. *)
Definition occurs (sep s : string) : Prop :=
  exists a b, s = a ++ sep ++ b.

(** The JSON text the parser hands to [json.loads]: what follows the first
    fence, up to the second one if there is one, stripped. *)
Definition embedded_json (content : string) : option string :=
  match nth_error (Str.split fence 2 content) 1 with
  | Some part => Some (Str.lstrip ("json" ++ nl) (Str.strip part))
  | None => None
  end.

(** The envelope is an object whose [choices] start with an object whose
    [message] is an object whose [content] is the string [content]. *)
Definition first_choice_content (result : pyval) (content : string) : Prop :=
  exists d choice others m,
    result = PDict d
    /\ dict_get d "choices" = Some (PList (PDict choice :: others))
    /\ dict_get choice "message" = Some (PDict m)
    /\ dict_get m "content" = Some (PStr content).

(** The count the body reports under [usage], when it is a number. *)
Definition reported (body : pyval) (k : string) : option Z :=
  match and_then (getitem body (KStr "usage")) (fun u => getitem u (KStr k)) with
  | Ok (PInt z) => Some z
  | Ok (PBool b) => Some (if b then 1 else 0)%Z
  | _ => None
  end.

(** What the remote call for [file] gives, when its image can be read. *)
Definition response (W : world) (dir key file : string) : res pyval :=
  and_then (read_file W (path_join dir file)) (fun bytes =>
  http_post W (build_request key (PROMPT_format file) (Base64.b64encode bytes))).

Definition readable (W : world) (dir file : string) : Prop :=
  exists bytes, read_file W (path_join dir file) = Ok bytes.

Definition zero : tally := {| prompt_tokens := 0; completion_tokens := 0 |}.

Definition tally_add (a b : tally) : tally :=
  {| prompt_tokens := prompt_tokens a + prompt_tokens b;
     completion_tokens := completion_tokens a + completion_tokens b |}.

(** The usage a response reports: both counts, or nothing. *)
Definition usage_of (r : res pyval) : tally :=
  match r with
  | Ok body =>
      match reported body "prompt_tokens", reported body "completion_tokens" with
      | Some p, Some c => {| prompt_tokens := p; completion_tokens := c |}
      | _, _ => zero
      end
  | Raise _ => zero
  end.

(** Each of the two counts the body reports is at least zero. *)
Definition nonneg_count (count : option Z) : bool :=
  match count with
  | Some z => (0 <=? z)%Z
  | None => true
  end.

Definition nonneg_usage (body : pyval) : bool :=
  nonneg_count (reported body "prompt_tokens")
  && nonneg_count (reported body "completion_tokens").

Definition is_completion (e : event) : bool :=
  match e with Completion _ _ => true | _ => false end.

Definition is_progress (e : event) : bool :=
  match e with Progress _ => true | _ => false end.

(** How many times the completion callback was invoked. *)
Definition completions (tr : list event) : nat :=
  List.length (filter is_completion tr).

(** The state once [request_complete] has printed and counted. *)
Definition notified (m : message) (s : manager) : manager :=
  set_completed_requests (completed_requests s + 1) (emit (Print m) s).

(** The usage reported for the files of a batch, summed. *)
Fixpoint total_usage (W : world) (dir key : string) (fs : list string) : tally :=
  match fs with
  | [] => zero
  | f :: fs' => tally_add (usage_of (response W dir key f)) (total_usage W dir key fs')
  end.

(** The parser gave a value for the content of the body: it neither raised
    nor returned [None]. *)
Definition parsed (W : world) (body : pyval) : bool :=
  match fst (parse_openai_json_result W body (blank EmptyString EmptyString)) with
  | Ok PNone => false
  | Ok _ => true
  | Raise _ => false
  end.

(** The tally as the specification words it: the usage of the responses
    that were parsed, and nothing for the other files. *)
Fixpoint tally_of_parsed (W : world) (dir key : string) (fs : list string) : tally :=
  match fs with
  | [] => zero
  | f :: fs' =>
      tally_add
        (match response W dir key f with
         | Ok body => if parsed W body then usage_of (Ok body) else zero
         | Raise _ => zero
         end)
        (tally_of_parsed W dir key fs')
  end.

(** What no statement of a batch changes. *)
Definition same_batch (s s' : manager) : Prop :=
  directory s' = directory s /\ api_key s' = api_key s
  /\ num_requests s' = num_requests s /\ files s' = files s.

(** ** Concrete worlds *)

(** A directory with the given entries; the files named in [unreadable]
    cannot be opened, the others hold their own path; the request for a file
    is answered as [answers] says, and fails when it says nothing; the
    completion callback returns. *)
Definition table_world (entries unreadable : list string)
    (answers : list (string * res pyval)) : world :=
  {| listdir := fun _ => Ok entries;
     read_file := fun path =>
       if existsb (String.eqb path) unreadable then Raise OSError else Ok path;
     http_post := fun req =>
       match find (fun a => String.eqb (text req) (PROMPT_format (fst a))) answers with
       | Some a => snd a
       | None => Raise (OtherError "ConnectionError")
       end;
     json_loads := Json.loads;
     callback_outcome := fun _ _ => Ok tt |}.

(** The world [W] with the completion callback [callback]. *)
Definition with_callback (W : world)
    (callback : list pyval -> tally -> res unit) : world :=
  {| listdir := listdir W;
     read_file := read_file W;
     http_post := http_post W;
     json_loads := json_loads W;
     callback_outcome := callback |}.

(** An envelope with the given message content and usage counts. *)
Definition envelope (content : string) (prompt completion : Z) : pyval :=
  PDict [("choices", PList [PDict [("message", PDict [("content", PStr content)])]]);
         ("usage", PDict [("prompt_tokens", PInt prompt);
                          ("completion_tokens", PInt completion)])].

(** The JSON text of the object with the one key [a] and the value [b]. *)
Definition ab_text : string :=
  "{" ++ dq ++ "a" ++ dq ++ ":" ++ dq ++ "b" ++ dq ++ "}".

Definition ab_dict : pyval := PDict [("a", PStr "b")].

(** The code block around a text, as the remote service writes it. *)
Definition fenced (txt : string) : string :=
  fence ++ "json" ++ nl ++ txt ++ nl ++ fence.

(** One image whose response carries usage counts and a content without a
    code block. *)
Definition unfenced_world : world :=
  table_world ["a.jpg"] [] [("a.jpg", Ok (envelope "no code block" 5 7))].


(** One image whose response carries a code block that is not JSON. *)
Definition oops_world : world :=
  table_world ["a.jpg"] [] [("a.jpg", Ok (envelope (fenced "{oops") 5 7))].

(** Two images, the first of which cannot be opened. *)
Definition unreadable_world : world :=
  table_world ["a.jpg"; "b.jpg"] ["d/a.jpg"]
    [("a.jpg", Ok (envelope (fenced ab_text) 3 4));
     ("b.jpg", Ok (envelope (fenced ab_text) 5 7))].

(** The same two images, the request for the first of which fails. *)
Definition flaky_world : world :=
  table_world ["a.jpg"; "b.jpg"] []
    [("b.jpg", Ok (envelope (fenced ab_text) 5 7))].

(** The directory of the specification's example. *)
Definition mixed_case_world : world :=
  table_world ["A.JPG"; "b.png"; "c.txt"; "d"] [] [].

(** A directory without an entry that [collect_files] keeps. *)
Definition text_only_world : world :=
  table_world ["c.txt"; "d"; "notes.JPG"] [] [].

Definition flaky_start : manager := snd (__init__ flaky_world "d" "k").

Definition oops_start : manager := snd (__init__ oops_world "d" "k").


(** ** More vocabulary *)

(** The completion callback returns, whatever it is given. *)
Definition callback_returns (W : world) : Prop :=
  forall results tokens, callback_outcome W results tokens = Ok tt.

(** [request_complete] called for each message of [msgs] in turn, each
    call made whatever the call before it did, as the callers in
    [process_image] do. *)
Definition notify_all (W : world) (msgs : list message) (s : manager) : manager :=
  fold_left (fun s m => snd (request_complete W m s)) msgs s.

(** What the manager sends to the progress sink of the specification, the
    text shown to the user while the batch runs: what it prints and what it
    gives to the progress callback, [MainWindow.on_progress] being [print].
    What the completion callback prints is the callback's own. *)
Fixpoint progress_sink (tr : list event) : list message :=
  match tr with
  | [] => []
  | Print m :: tr' => m :: progress_sink tr'
  | Progress m :: tr' => m :: progress_sink tr'
  | Completion _ _ :: tr' => progress_sink tr'
  end.

Definition backquote : ascii := "`"%char.

(** No back quote occurs in [s]. *)
Definition no_backquote (s : string) : bool := negb (Str.mem backquote s).

(** The first character of [txt] is one of [chars]. *)
Definition starts_with_one_of (chars txt : string) : bool :=
  match txt with
  | EmptyString => false
  | String c _ => Str.mem c chars
  end.

(** What the parser makes of the outcome of [json.loads] on [txt]. *)
Definition decode_outcome (W : world) (txt : string) (s : manager)
  : res pyval * manager :=
  match json_loads W txt with
  | Ok v => (Ok v, s)
  | Raise JSONDecodeError =>
      (Ok PNone, emit (Print (WithExn "Error parsing JSON" JSONDecodeError)) s)
  | Raise e => (Raise e, s)
  end.

(** The test of [MainWindow.scan_files]. *)
Definition has_image_suffix (file : string) : bool :=
  let suf := Str.lower (suffix file) in
  String.eqb suf ".jpg" || String.eqb suf ".jpeg" || String.eqb suf ".png".

(** [content or dict()] *)
Definition record_of (v : pyval) : pyval :=
  if truthy v then v else PDict [].

(** The records a response leaves in [results]: one when it reports its
    two counts and the parser returns, none otherwise. *)
Definition recorded (W : world) (body : pyval) : list pyval :=
  match reported body "completion_tokens", reported body "prompt_tokens" with
  | Some _, Some _ =>
      match fst (parse_openai_json_result W body (blank EmptyString EmptyString)) with
      | Ok v => [record_of v]
      | Raise _ => []
      end
  | _, _ => []
  end.

Definition recorded_for (W : world) (dir key file : string) : list pyval :=
  match response W dir key file with
  | Ok body => recorded W body
  | Raise _ => []
  end.

(** The message a file is notified with is one of the two of
    [process_image]. *)
Definition notice_of (path : string) (m : message) : Prop :=
  m = Lit ("Processed image " ++ path)
  \/ m = Lit ("Error processing image " ++ path).

Definition is_notice (e : event) : bool :=
  match e with Print (Lit _) => true | _ => false end.

(** ** [MainWindow]: validation and the CSV file *)

Module MainWindow.

(** [os.path.join(a, b)] *)
Definition os_path_join (a b : string) : string :=
  if Str.startswith b "/" then b
  else if String.eqb a EmptyString || Str.endswith a "/" then a ++ b
  else a ++ "/" ++ b.

(** The attributes of the window the methods below read; each is a string
    or [None]. *)
Record window : Type := {
  api_key : option string;
  directory : option string;
  output_dir : option string;
  output_file : option string;
  files : list string
}.

(** What the window asks of the desktop: [os.path.exists], the answer to
    [tk.messagebox.askyesno(title, message)], and whether
    [open(path, "w", newline="")] raises. *)
Record desktop : Type := {
  path_exists : string -> bool;
  askyesno : string -> string -> bool;
  open_for_writing : string -> res unit
}.

(** What the window does that can be observed. *)
Inductive effect : Type :=
| ShowInfo (title text : string)
| AskYesNo (title text : string)
| Printed (text : string)
| Opened (path : string)
| RowWritten (cells : list pyval)
| Closed (path : string)
| SetDisabled (widget : string) (disabled : bool)
| ProgressStopped
| ProgressValue (v : Z).

(** A statement gives a value or raises, and has effects. *)
Definition U (A : Type) : Type := (res A * list effect)%type.

Definition done {A : Type} (a : A) : U A := (Ok a, []).

Definition effects_of {A : Type} (u : U A) : list effect := snd u.

Definition then_ {A B : Type} (m : U A) (k : A -> U B) : U B :=
  match m with
  | (Ok a, t) => let (r, t') := k a in (r, (t ++ t')%list)
  | (Raise e, t) => (Raise e, t)
  end.

Declare Scope ui_scope.
Notation "x <- m ;; k" := (then_ m (fun x => k)) : ui_scope.
Notation "m ;;; k" := (then_ m (fun _ => k)) : ui_scope.
Local Open Scope ui_scope.

Definition value {A : Type} (r : res A) : U A := (r, []).

Definition perform (e : effect) : U unit := (Ok tt, [e]).

(** [try: body  finally: cleanup] *)
Definition finally {A : Type} (body : U A) (cleanup : U unit) : U A :=
  match body with
  | (r, t) =>
      match cleanup with
      | (Ok _, t') => (r, (t ++ t')%list)
      | (Raise e, t') => (Raise e, (t ++ t')%list)
      end
  end.

Fixpoint for_rows {A : Type} (l : list A) (body : A -> U unit) : U unit :=
  match l with
  | [] => done tt
  | x :: l' => body x ;;; for_rows l' body
  end.

(** [str(n)] for an [int]. *)
Definition str_int (n : Z) : string := NilZero.string_of_int (Z.to_int n).

(** Truth value of an attribute: [None] and the empty string are false. *)
Definition given (o : option string) : bool :=
  match o with
  | Some s => negb (String.eqb s EmptyString)
  | None => false
  end.

(** [f"{o}"] *)
Definition shown (o : option string) : string :=
  match o with
  | Some s => s
  | None => "None"
  end.

(** [MainWindow.validate] *)
Definition validate (w : window) : U bool :=
  if negb (given (api_key w)) then
    perform (ShowInfo "Error" "Please enter an OpenAI API key") ;;; done false
  else if negb (given (directory w)) then
    perform (ShowInfo "Error" "Please select a forms directory to process") ;;;
    done false
  else if negb (given (output_dir w)) then
    perform (ShowInfo "Error"
               "Please select an output directory to save the results") ;;;
    done false
  else if negb (given (output_file w)) then
    perform (ShowInfo "Error" "Please enter an output file name") ;;; done false
  else
    match files w with
    | [] =>
        perform (ShowInfo "Error"
                   ("No files found to process in " ++ shown (directory w))) ;;;
        done false
    | _ :: _ => done true
    end.

(** [rowdict.keys()]: only a [dict] has the method. *)
Definition keys (rowdict : pyval) : res (list string) :=
  match rowdict with
  | PDict d => Ok (map fst d)
  | _ => Raise AttributeError
  end.

(** [rowdict.get(key, restval)] on a [dict]. *)
Definition get_or (rowdict : pyval) (key : string) (restval : pyval) : pyval :=
  match rowdict with
  | PDict d => match dict_get d key with Some v => v | None => restval end
  | _ => restval
  end.

(** [csv.DictWriter._dict_to_list] with the defaults [restval=""] and
    [extrasaction="raise"]. *)
Definition _dict_to_list (fieldnames : list string) (rowdict : pyval)
  : res (list pyval) :=
  and_then (keys rowdict) (fun ks =>
    if existsb (fun k => negb (existsb (String.eqb k) fieldnames)) ks
    then Raise (OtherError "ValueError")
    else Ok (map (fun key => get_or rowdict key (PStr EmptyString)) fieldnames)).

(** [os.path.join(self.output_dir, self.output_file)] *)
Definition output_path (w : window) : res string :=
  match output_dir w, output_file w with
  | Some dir, Some file => Ok (os_path_join dir file)
  | _, _ => Raise TypeError
  end.

Section Desktop.

Variable D : desktop.

(** [MainWindow.write_csv].  A row is what [DictWriter] hands to the
    writer of the module [csv]; the text the writer makes of it is not
    modelled. *)
Definition write_csv (w : window) (results : list pyval) : U unit :=
  match results with
  | [] => done tt
  | first :: _ =>
      path <- value (output_path w) ;;
      overwrite <-
        (if path_exists D path
         then perform (AskYesNo "File Exists" ("Overwrite " ++ path ++ "?")) ;;;
              done (askyesno D "File Exists" ("Overwrite " ++ path ++ "?"))
         else done true) ;;
      if negb overwrite then done tt
      else
        value (open_for_writing D path) ;;;
        perform (Opened path) ;;;
        finally
          (fieldnames <- value (keys first) ;;
           perform (RowWritten (map PStr fieldnames)) ;;;
           for_rows results
             (fun rowdict =>
                cells <- value (_dict_to_list fieldnames rowdict) ;;
                perform (RowWritten cells)))
          (perform (Closed path)) ;;;
        perform (Printed ("Results written to " ++ path))
  end.

(** [MainWindow.on_progress] *)
Definition on_progress (status : string) : U unit := perform (Printed status).

(** [MainWindow.on_complete] *)
Definition on_complete (w : window) (results : list pyval) (tokens : tally)
  : U unit :=
  perform (SetDisabled "process_files" false) ;;;
  perform ProgressStopped ;;;
  perform (ProgressValue 0) ;;;
  perform (Printed "Processing complete") ;;;
  perform (Printed ("Completion tokens: " ++ str_int (completion_tokens tokens))) ;;;
  perform (Printed ("Prompt tokens: " ++ str_int (prompt_tokens tokens))) ;;;
  write_csv w results.

End Desktop.

Definition is_row (e : effect) : bool :=
  match e with RowWritten _ => true | _ => false end.

(** The rows written, in order. *)
Fixpoint rows_of (t : list effect) : list (list pyval) :=
  match t with
  | [] => []
  | RowWritten cells :: t' => cells :: rows_of t'
  | _ :: t' => rows_of t'
  end.

Definition count_opened (t : list effect) : nat :=
  List.length (filter (fun e => match e with Opened _ => true | _ => false end) t).

Definition count_closed (t : list effect) : nat :=
  List.length (filter (fun e => match e with Closed _ => true | _ => false end) t).

(** The statement [write_csv] runs for each record. *)
Definition write_row (fieldnames : list string) (rowdict : pyval) : U unit :=
  cells <- value (_dict_to_list fieldnames rowdict) ;;
  perform (RowWritten cells).

(** The cells of a record under the header [fieldnames]: the value of
    each field, or the empty string where the record has none. *)
Definition row_of (fieldnames : list string) (rowdict : pyval) : list pyval :=
  map (fun key => get_or rowdict key (PStr EmptyString)) fieldnames.

(** The question of [write_csv] before it overwrites. *)
Definition overwrite_question (path : string) : string :=
  "Overwrite " ++ path ++ "?".

(** The file at [path] may be written: there is none yet, or the user
    agrees to overwrite it. *)
Definition may_write (D : desktop) (path : string) : bool :=
  negb (path_exists D path)
  || askyesno D "File Exists" (overwrite_question path).

(** The dialog shown before an existing file is overwritten. *)
Definition asked (D : desktop) (path : string) : list effect :=
  if path_exists D path
  then [AskYesNo "File Exists" (overwrite_question path)] else [].

(** The record is a [dict] whose keys are all among [fieldnames]. *)
Definition fits (fieldnames : list string) (rowdict : pyval) : bool :=
  match rowdict with
  | PDict d => forallb (fun k => existsb (String.eqb k) fieldnames) (map fst d)
  | _ => false
  end.

End MainWindow.

(** The world [W] with [MainWindow.on_complete] of the window [w] as the
    completion callback, which is how [on_process_files] builds the
    manager. *)
Definition with_window (W : world) (D : MainWindow.desktop)
    (w : MainWindow.window) : world :=
  with_callback W
    (fun results tokens => fst (MainWindow.on_complete D w results tokens)).

(** ** More concrete worlds *)

(** A desktop without any file, on which every file can be created. *)
Definition clean_desktop : MainWindow.desktop :=
  {| MainWindow.path_exists := fun _ => false;
     MainWindow.askyesno := fun _ _ => false;
     MainWindow.open_for_writing := fun _ => Ok tt |}.

(** A desktop on which the output file exists and the user keeps it. *)
Definition kept_desktop : MainWindow.desktop :=
  {| MainWindow.path_exists := fun _ => true;
     MainWindow.askyesno := fun _ _ => false;
     MainWindow.open_for_writing := fun _ => Ok tt |}.

(** A window with its four settings and one file found. *)
Definition ready_window : MainWindow.window :=
  {| MainWindow.api_key := Some "k";
     MainWindow.directory := Some "d";
     MainWindow.output_dir := Some "out";
     MainWindow.output_file := Some "contacts.csv";
     MainWindow.files := ["d/notes.JPG"] |}.

(** Records with the same fields, the second of which lacks one. *)
Definition even_records : list pyval :=
  [PDict [("first_name", PStr "Ada"); ("email", PStr "ada@example.org")];
   PDict [("first_name", PStr "Bob")]].

(** Records the third of which has a field the first has not. *)
Definition uneven_records : list pyval :=
  [PDict [("first_name", PStr "Ada")];
   PDict [("first_name", PStr "Bob")];
   PDict [("first_name", PStr "Cy"); ("city", PStr "Oslo")];
   PDict [("first_name", PStr "Di")]].


(** Three images, the second of which cannot be opened. *)
Definition late_unreadable_world : world :=
  table_world ["a.jpg"; "b.jpg"; "c.jpg"] ["d/b.jpg"]
    [("a.jpg", Ok (envelope (fenced ab_text) 3 4));
     ("b.jpg", Ok (envelope (fenced ab_text) 5 7));
     ("c.jpg", Ok (envelope (fenced ab_text) 1 1))].

Definition late_unreadable_start : manager :=
  snd (__init__ late_unreadable_world "d" "k").

(** The world [flaky_world] with a decoder that refuses every text starting
    with one of the characters of [json] or a newline. *)
Definition picky_world : world :=
  {| listdir := listdir flaky_world;
     read_file := read_file flaky_world;
     http_post := http_post flaky_world;
     json_loads := fun txt =>
       if starts_with_one_of ("json" ++ nl) txt
       then Raise (OtherError "RecursionError")
       else Json.loads txt;
     callback_outcome := callback_outcome flaky_world |}.

(** A response that reports its completion count only. *)
Definition half_usage : pyval :=
  PDict [("choices", PList [PDict [("message", PDict [("content", PStr (fenced ab_text))])]]);
         ("usage", PDict [("completion_tokens", PInt 7)])].

(** A content with text before and after its code block. *)
Definition chatty_content : string :=
  "Here is the form:" ++ nl ++ fence ++ "json" ++ nl ++ ab_text ++ nl ++ fence
  ++ nl ++ "Anything else?".

(** The directory of [mixed_case_world] with its names in lower case. *)
Definition lower_case_world : world :=
  table_world ["a.jpg"; "b.png"; "c.txt"; "d"] [] [].


(** A desktop on which the output file cannot be opened for writing. *)
Definition locked_desktop : MainWindow.desktop :=
  {| MainWindow.path_exists := fun _ => false;
     MainWindow.askyesno := fun _ _ => false;
     MainWindow.open_for_writing := fun _ => Raise OSError |}.

(** A window with its four settings and the two images of [d] found. *)
Definition two_files_window : MainWindow.window :=
  {| MainWindow.api_key := Some "k";
     MainWindow.directory := Some "d";
     MainWindow.output_dir := Some "out";
     MainWindow.output_file := Some "contacts.csv";
     MainWindow.files := ["d/a.jpg"; "d/b.jpg"] |}.

(** The JSON text of the object with the keys [a] and [c]. *)
Definition abcd_text : string :=
  "{" ++ dq ++ "a" ++ dq ++ ":" ++ dq ++ "b" ++ dq ++ ","
  ++ dq ++ "c" ++ dq ++ ":" ++ dq ++ "d" ++ dq ++ "}".

Definition abcd_dict : pyval := PDict [("a", PStr "b"); ("c", PStr "d")].

(** Two images whose records differ in their keys, given to the window:
    [write_csv] refuses the second record, so [on_complete] raises. *)
Definition uneven_world : world :=
  with_window
    (table_world ["a.jpg"; "b.jpg"] []
       [("a.jpg", Ok (envelope (fenced ab_text) 1 2));
        ("b.jpg", Ok (envelope (fenced abcd_text) 3 4))])
    clean_desktop two_files_window.

Definition uneven_start : manager := snd (__init__ uneven_world "d" "k").

(** Two images, the request for the second of which fails, given to a
    window that cannot open its output file: [on_complete] raises, and is
    called from the [except] branch of [process_image]. *)
Definition locked_world : world :=
  with_window
    (table_world ["a.jpg"; "b.jpg"] []
       [("a.jpg", Ok (envelope (fenced ab_text) 1 2))])
    locked_desktop two_files_window.

Definition locked_start : manager := snd (__init__ locked_world "d" "k").

(** [flaky_world] and [text_only_world] with the window's callback. *)
Definition flaky_window_world : world :=
  with_window flaky_world clean_desktop two_files_window.

Definition text_only_window_world : world :=
  with_window text_only_world clean_desktop ready_window.
(** * Properties *)

(** ** Splitting at the fence *)

Lemma startswith_app (p b : string) : Str.startswith (p ++ b) p = true.
Proof.
  induction p as [|c p IH]; simpl; [reflexivity|].
  now rewrite Ascii.eqb_refl.
Qed.

Lemma startswith_drop (p s : string) :
  Str.startswith s p = true -> s = p ++ Str.drop (String.length p) s.
Proof.
  revert s; induction p as [|c p IH]; intros s H; simpl in *.
  - reflexivity.
  - destruct s as [|d s]; [discriminate|].
    apply andb_prop in H as [Hc Hs].
    apply Ascii.eqb_eq in Hc; subst d.
    simpl. f_equal. now apply IH.
Qed.

Lemma partition_some (sep s a b : string) :
  Str.partition sep s = Some (a, b) -> s = a ++ sep ++ b.
Proof.
  revert a b; induction s as [|c s IH]; intros a b H.
  - simpl in H. destruct (Str.startswith EmptyString sep) eqn:E; [|discriminate].
    inversion H; subst. simpl. now apply startswith_drop.
  - simpl in H.
    destruct (Str.startswith (String c s) sep) eqn:E.
    + inversion H; subst. simpl. now apply startswith_drop.
    + destruct (Str.partition sep s) as [[a' b']|] eqn:P; [|discriminate].
      inversion H; subst. simpl. f_equal. now apply IH.
Qed.

Lemma partition_none (sep s : string) :
  Str.partition sep s = None -> ~ occurs sep s.
Proof.
  induction s as [|c s IH]; intros H [a [b E]].
  - simpl in H. destruct (Str.startswith EmptyString sep) eqn:S; [discriminate|].
    destruct a; simpl in E; [|discriminate].
    rewrite E, startswith_app in S. discriminate.
  - simpl in H.
    destruct (Str.startswith (String c s) sep) eqn:S; [discriminate|].
    destruct (Str.partition sep s) as [[a' b']|] eqn:P; [discriminate|].
    destruct a as [|c' a]; simpl in E.
    + rewrite E, startswith_app in S. discriminate.
    + inversion E; subst. apply IH; [reflexivity|]. now exists a, b.
Qed.

Lemma partition_occurs (sep s : string) :
  occurs sep s <-> exists a b, Str.partition sep s = Some (a, b).
Proof.
  split.
  - intros H. destruct (Str.partition sep s) as [[a b]|] eqn:P.
    + now exists a, b.
    + exfalso. now apply (partition_none sep s).
  - intros [a [b P]]. exists a, b. now apply partition_some.
Qed.

(** Without a fence the split has one part, with a fence at least two. *)
Lemma split_without_fence (content : string) :
  ~ occurs fence content -> Str.split fence 2 content = [content].
Proof.
  intros H. simpl.
  destruct (Str.partition fence content) as [[a b]|] eqn:P; [|reflexivity].
  exfalso. apply H. exists a, b. now apply partition_some.
Qed.

Lemma split_with_fence (content : string) :
  occurs fence content ->
  exists a part rest, Str.split fence 2 content = a :: part :: rest.
Proof.
  intros H. apply partition_occurs in H as [a [b P]].
  simpl. rewrite P.
  destruct (Str.partition fence b) as [[b1 b2]|]; eauto.
Qed.

Lemma embedded_json_occurs (content : string) :
  occurs fence content <-> exists txt, embedded_json content = Some txt.
Proof.
  unfold embedded_json. split.
  - intros H. apply split_with_fence in H as [a [part [rest E]]].
    rewrite E. simpl. eauto.
  - intros [txt H].
    destruct (Str.partition fence content) as [[a b]|] eqn:P.
    + exists a, b. now apply partition_some.
    + simpl in H. rewrite P in H. discriminate.
Qed.

(** ** Reading the envelope *)

Lemma first_choice_message_content (result : pyval) (content : string) :
  first_choice_content result content <->
  message_content result = Ok (PStr content).
Proof.
  split.
  - intros [d [choice [others [m [-> [Hc [Hm Ht]]]]]]].
    unfold message_content. simpl. rewrite Hc. simpl. rewrite Hm. simpl.
    now rewrite Ht.
  - unfold message_content, first_choice_content. intros H.
    destruct result as [| | | |l|d]; simpl in H; try discriminate.
    destruct (dict_get d "choices") as [choices|] eqn:Hc; [|discriminate].
    simpl in H.
    destruct choices as [| | |t|l|d']; simpl in H; try discriminate.
    + destruct (String.get 0 t); discriminate.
    + destruct l as [|choice others]; simpl in H; [discriminate|].
      destruct choice as [| | | |l'|c]; simpl in H; try discriminate.
      destruct (dict_get c "message") as [msg|] eqn:Hm; [|discriminate].
      simpl in H.
      destruct msg as [| | | |l'|m]; simpl in H; try discriminate.
      destruct (dict_get m "content") as [v|] eqn:Ht; [|discriminate].
      inversion H; subst. exists d, c, others, m. auto.
Qed.

(** ** What each statement does to the state *)

Section Steps.

Variable W : world.

Lemma parse_unfold (result : pyval) (s : manager) :
  parse_openai_json_result W result s =
  match message_content result with
  | Raise e => (Raise e, s)
  | Ok content =>
      match py_split content fence 2 with
      | Raise e => (Raise e, s)
      | Ok parts =>
          match list_item parts 1 with
          | Raise e => (Raise e, s)
          | Ok part =>
              match json_loads W (Str.lstrip ("json" ++ nl) (Str.strip part)) with
              | Ok v => (Ok v, s)
              | Raise JSONDecodeError =>
                  (Ok PNone, emit (Print (WithExn "Error parsing JSON" JSONDecodeError)) s)
              | Raise e => (Raise e, s)
              end
          end
      end
  end.
Proof.
  unfold parse_openai_json_result, bind, eval, try_except.
  destruct (message_content result) as [content|e]; [|reflexivity].
  destruct (py_split content fence 2) as [parts|e]; [|reflexivity].
  destruct (list_item parts 1) as [part|e]; [|reflexivity].
  destruct (json_loads W _) as [v|e]; [reflexivity|].
  destruct e; reflexivity.
Qed.

(** A content with an embedded text reaches [json.loads] with that text. *)
Lemma parse_embedded (result : pyval) (content txt : string) (s : manager) :
  message_content result = Ok (PStr content) ->
  embedded_json content = Some txt ->
  parse_openai_json_result W result s =
  match json_loads W txt with
  | Ok v => (Ok v, s)
  | Raise JSONDecodeError =>
      (Ok PNone, emit (Print (WithExn "Error parsing JSON" JSONDecodeError)) s)
  | Raise e => (Raise e, s)
  end.
Proof.
  intros Hc He. rewrite parse_unfold, Hc. unfold py_split, list_item.
  unfold embedded_json in He.
  destruct (nth_error (Str.split fence 2 content) 1) as [part|]; [|discriminate].
  now inversion He.
Qed.

End Steps.

(** ** The string functions on examples *)

Example split_fenced :
  Str.split fence 2 (fence ++ "json" ++ nl ++ "{}" ++ nl ++ fence)
  = [EmptyString; "json" ++ nl ++ "{}" ++ nl; EmptyString].
Proof. reflexivity. Qed.

Example split_more_fences :
  Str.split fence 2 "a```b```c```d" = ["a"; "b"; "c```d"].
Proof. reflexivity. Qed.

Example split_four_backquotes : Str.split fence 2 "````" = [EmptyString; "`"].
Proof. reflexivity. Qed.

Example strip_both : Str.strip ("  a b " ++ nl) = "a b".
Proof. reflexivity. Qed.

Example lstrip_is_a_set : Str.lstrip ("json" ++ nl) "jsonnull" = "ull".
Proof. reflexivity. Qed.

Example suffix_examples :
  map suffix ["A.JPG"; ".jpg"; "a."; "a.b.jpg"; "..jpg"; "d"]
  = [".JPG"; EmptyString; EmptyString; ".jpg"; ".jpg"; EmptyString].
Proof. reflexivity. Qed.

Example endswith_examples :
  map (fun s => Str.endswith s ".jpg") ["A.JPG"; ".jpg"; "a.b.jpg"; "jpg"; "a.jpg."]
  = [false; true; true; false; false].
Proof. reflexivity. Qed.

Arguments PROMPT_format : simpl never.
Arguments path_join : simpl never.
Arguments build_request : simpl never.
Arguments Base64.b64encode : simpl never.
Arguments String.append : simpl never.

(** Case analysis on the innermost scrutinee of the goal. *)
Ltac inner_case :=
  match goal with
  | |- context [match ?x with _ => _ end] =>
      lazymatch x with
      | context [match _ with _ => _ end] => fail
      | _ => destruct x eqn:?
      end
  end.

Ltac run_cases := repeat (simpl; try reflexivity; inner_case).


(** ** The notification, the response and the request *)

Section Effects.

Variable W : world.

Lemma request_complete_unfold (m : message) (s : manager) :
  request_complete W m s =
  if Nat.eqb (completed_requests s + 1) (num_requests s)
  then (callback_outcome W (results s) (tokens s),
        emit (Completion (results s) (tokens s)) (notified m s))
  else (Ok tt, notified m s).
Proof.
  unfold request_complete, bind, print, modify, get, completion_callback, ret.
  simpl. destruct (Nat.eqb _ _); reflexivity.
Qed.

(** The tally after [process_result], whatever its outcome. *)
Lemma process_result_tokens (path : string) (result : pyval) (s : manager) :
  tokens (snd (process_result W path result s)) =
  match reported result "completion_tokens" with
  | None => tokens s
  | Some c =>
      match reported result "prompt_tokens" with
      | None => {| prompt_tokens := prompt_tokens (tokens s);
                   completion_tokens := completion_tokens (tokens s) + c |}
      | Some p => {| prompt_tokens := prompt_tokens (tokens s) + p;
                     completion_tokens := completion_tokens (tokens s) + c |}
      end
  end.
Proof.
  unfold process_result, reported, bind, eval, get, modify, progress_callback.
  destruct (getitem result (KStr "usage")) as [u|e]; simpl; [|reflexivity].
  destruct (getitem u (KStr "completion_tokens")) as [c|e]; simpl; [|reflexivity].
  destruct c; simpl; try reflexivity;
    (destruct (getitem u (KStr "prompt_tokens")) as [p|e]; simpl; [|reflexivity]);
    destruct p; simpl; try reflexivity;
    rewrite parse_unfold; run_cases.
Qed.

(** [process_result] leaves the counters, the files and the settings alone;
    when it raises it has recorded and reported nothing; when it returns it
    has appended one record and reported it to the progress callback. *)
Lemma process_result_cases (path : string) (result : pyval) (s : manager) :
  match process_result W path result s with
  | (r, s') =>
      (directory s' = directory s /\ api_key s' = api_key s
       /\ completed_requests s' = completed_requests s
       /\ num_requests s' = num_requests s /\ files s' = files s)
      /\ match r with
         | Raise _ => results s' = results s /\ out s' = out s
         | Ok _ =>
             exists record pre,
               results s' = (results s ++ [record])%list
               /\ out s' = (out s ++ pre ++ [Progress (StrOf record)])%list
               /\ (pre = [] \/
                   pre = [Print (WithExn "Error parsing JSON" JSONDecodeError)])
         end
  end.
Proof.
  unfold process_result, bind, eval, get, modify, progress_callback.
  repeat (simpl; try rewrite parse_unfold; try inner_case);
    (split; [repeat split; reflexivity|]);
    try (split; reflexivity).
  all: eexists; eexists; split; [reflexivity|]; simpl;
    first [ split; [|left; reflexivity]; reflexivity
          | split; [|right; reflexivity]; rewrite <- app_assoc; reflexivity ].
Qed.

(** With its image read, [process_image] comes down to its [try]: an
    exception of the request, of [process_result] or of the notification
    that follows it (raised by the completion callback) goes to the
    [except] branch, which prints it and notifies the file. *)
Lemma process_image_readable (path prompt bytes : string) (s : manager) :
  read_file W path = Ok bytes ->
  process_image W path prompt s =
  match http_post W (build_request (api_key s) prompt (Base64.b64encode bytes)) with
  | Raise e =>
      request_complete W (Lit ("Error processing image " ++ path))
        (emit (Print (WithExn ("Error processing image " ++ path) e)) s)
  | Ok body =>
      match process_result W path body s with
      | (Ok _, s1) =>
          match request_complete W (Lit ("Processed image " ++ path)) s1 with
          | (Ok u, s2) => (Ok u, s2)
          | (Raise e, s2) =>
              request_complete W (Lit ("Error processing image " ++ path))
                (emit (Print (WithExn ("Error processing image " ++ path) e)) s2)
          end
      | (Raise e, s1) =>
          request_complete W (Lit ("Error processing image " ++ path))
            (emit (Print (WithExn ("Error processing image " ++ path) e)) s1)
      end
  end.
Proof.
  intros H.
  unfold process_image, encode_image, bind, eval, get, ret, try_except, print, modify.
  rewrite H. cbn [fst snd].
  destruct (http_post W _) as [body|e]; [|reflexivity].
  destruct (process_result W path body s) as [[[]|e] s1]; reflexivity.
Qed.

Lemma process_image_unreadable (path prompt : string) (e : exn) (s : manager) :
  read_file W path = Raise e ->
  process_image W path prompt s = (Raise e, s).
Proof.
  intros H. unfold process_image, encode_image, bind, eval. now rewrite H.
Qed.

(** The parser's value does not depend on the state, and the parser keeps
    the records. *)
Lemma parse_outcome (result : pyval) (s s0 : manager) :
  fst (parse_openai_json_result W result s)
  = fst (parse_openai_json_result W result s0)
  /\ results (snd (parse_openai_json_result W result s)) = results s.
Proof.
  rewrite !parse_unfold.
  destruct (message_content result) as [content|e]; [|now split].
  destruct (py_split content fence 2) as [parts|e]; [|now split].
  destruct (list_item parts 1) as [part|e]; [|now split].
  destruct (json_loads W _) as [v|e]; [now split|].
  destruct e; now split.
Qed.

(** [process_result] in full: the counters and the settings are kept; the
    records grow by what [recorded] says; a return has reported the record
    to the progress callback, after the parser's message if the text was
    not JSON; a raise has reported nothing. *)
Lemma process_result_spec (path : string) (body : pyval) (s : manager) :
  match process_result W path body s with
  | (r, s') =>
      (completed_requests s' = completed_requests s
       /\ num_requests s' = num_requests s)
      /\ results s' = (results s ++ recorded W body)%list
      /\ match r with
         | Raise _ => recorded W body = [] /\ out s' = out s
         | Ok _ =>
             exists record pre,
               recorded W body = [record]
               /\ out s' = (out s ++ pre ++ [Progress (StrOf record)])%list
               /\ (pre = [] \/
                   pre = [Print (WithExn "Error parsing JSON" JSONDecodeError)])
         end
  end.
Proof.
  unfold process_result, recorded, record_of, reported, and_then,
    bind, eval, get, modify, progress_callback.
  destruct (getitem body (KStr "usage")) as [u|e]; simpl;
    [|repeat split; now rewrite app_nil_r].
  destruct (getitem u (KStr "completion_tokens")) as [c|e]; simpl;
    [|repeat split; now rewrite app_nil_r].
  destruct c; simpl; try (repeat split; now rewrite app_nil_r);
    (destruct (getitem u (KStr "prompt_tokens")) as [p|e]; simpl;
     [|repeat split; now rewrite app_nil_r]);
    destruct p; simpl; try (repeat split; now rewrite app_nil_r);
    rewrite !parse_unfold;
    repeat (simpl; inner_case);
    simpl;
    (split; [split; reflexivity|]);
    (split; [try reflexivity; try (now rewrite app_nil_r)|]);
    try (split; reflexivity);
    eexists; eexists; (split; [reflexivity|]); simpl;
    first [ split; [|left; reflexivity]; reflexivity
          | split; [|right; reflexivity]; rewrite <- app_assoc; reflexivity ].
Qed.

End Effects.

(** ** Counting completions *)

Lemma completions_app (a b : list event) :
  completions (a ++ b) = completions a + completions b.
Proof. unfold completions. now rewrite filter_app, length_app. Qed.

Lemma same_batch_trans (a b c : manager) :
  same_batch a b -> same_batch b c -> same_batch a c.
Proof.
  unfold same_batch. intros (H1 & H2 & H3 & H4) (K1 & K2 & K3 & K4).
  repeat split; congruence.
Qed.

Lemma for_each_app {A : Type} (l1 l2 : list A) (body : A -> M unit) (s : manager) :
  for_each (l1 ++ l2) body s =
  match for_each l1 body s with
  | (Ok _, s1) => for_each l2 body s1
  | (Raise e, s1) => (Raise e, s1)
  end.
Proof.
  revert s; induction l1 as [|x l1 IH]; intros s.
  - reflexivity.
  - cbn [app for_each]. unfold bind.
    destruct (body x s) as [[u|e] s1]; [apply IH|reflexivity].
Qed.

Section Batch.

Variable W : world.

(** One notification: printed, counted, and the callback invoked exactly
    when the count reaches the number of requests; the notification raises
    when the callback does. *)
Lemma request_complete_cases (m : message) (s : manager) :
  exists r s',
    request_complete W m s = (r, s')
    /\ same_batch s s'
    /\ results s' = results s /\ tokens s' = tokens s
    /\ completed_requests s' = completed_requests s + 1
    /\ out s' =
       (out s ++ Print m ::
          if Nat.eqb (completed_requests s + 1) (num_requests s)
          then [Completion (results s') (tokens s')] else [])%list
    /\ r = (if Nat.eqb (completed_requests s + 1) (num_requests s)
            then callback_outcome W (results s') (tokens s') else Ok tt).
Proof.
  rewrite request_complete_unfold.
  destruct (Nat.eqb _ _); eexists; eexists; (split; [reflexivity|]);
    cbn [emit notified set_completed_requests directory api_key num_requests
         files results tokens out completed_requests];
    repeat split; try reflexivity.
  now rewrite <- app_assoc.
Qed.

Lemma process_file_unreadable (f : string) (e : exn) (s : manager) :
  read_file W (path_join (directory s) f) = Raise e ->
  process_file W f s =
  (Raise e, emit (Progress (Lit ("Processing " ++ f ++ "..."))) s).
Proof.
  intros H. unfold process_file, bind, get, progress_callback, modify.
  cbn [fst snd]. now apply process_image_unreadable.
Qed.

Lemma request_complete_tokens (m : message) (s : manager) :
  tokens (snd (request_complete W m s)) = tokens s.
Proof.
  rewrite request_complete_unfold. now destruct (Nat.eqb _ _).
Qed.

(** The tally after a file, whatever became of it and whatever the
    completion callback did. *)
Lemma process_file_tokens (f : string) (s : manager) :
  tokens (snd (process_file W f s)) =
  match response W (directory s) (api_key s) f with
  | Raise _ => tokens s
  | Ok body =>
      match reported body "completion_tokens" with
      | None => tokens s
      | Some c =>
          match reported body "prompt_tokens" with
          | None => {| prompt_tokens := prompt_tokens (tokens s);
                       completion_tokens := completion_tokens (tokens s) + c |}
          | Some p => {| prompt_tokens := prompt_tokens (tokens s) + p;
                         completion_tokens := completion_tokens (tokens s) + c |}
          end
      end
  end.
Proof.
  unfold response, and_then.
  destruct (read_file W (path_join (directory s) f)) as [bytes|e] eqn:Hr.
  - unfold process_file, bind, get, progress_callback, modify. cbn [fst snd].
    rewrite (process_image_readable W _ _ bytes) by exact Hr.
    set (s0 := emit _ s).
    change (api_key s0) with (api_key s).
    destruct (http_post W _) as [body|e].
    + pose proof (process_result_tokens W (path_join (directory s) f) body s0) as T.
      change (tokens s0) with (tokens s) in T.
      destruct (process_result W _ body s0) as [[[]|e] s1]; cbn [snd] in T.
      * pose proof (request_complete_tokens
                      (Lit ("Processed image " ++ path_join (directory s) f)) s1) as T1.
        destruct (request_complete W _ s1) as [[u|e] s2]; cbn [snd] in *.
        -- now rewrite T1.
        -- rewrite request_complete_tokens. cbn [emit tokens]. now rewrite T1.
      * rewrite request_complete_tokens. exact T.
    + now rewrite request_complete_tokens.
  - now rewrite (process_file_unreadable f e s Hr).
Qed.

Lemma recorded_for_readable (dir key f bytes : string) :
  read_file W (path_join dir f) = Ok bytes ->
  recorded_for W dir key f =
  match http_post W (build_request key (PROMPT_format f) (Base64.b64encode bytes)) with
  | Ok body => recorded W body
  | Raise _ => []
  end.
Proof. intros H. unfold recorded_for, response, and_then. now rewrite H. Qed.

(** A readable file in full.  After the message to the progress callback
    come the events of the request ([middle]: the record and the success
    notification, or the two prints of the failure), and then those of the
    completion callback ([tail]) when the notification made the count equal
    to the number of requests.  A callback that raises after the success
    notification is caught by the [except] branch: the file is printed as
    an error and counted a second time, its record kept; one that raises
    after the failure notification leaves [process_image]. *)
Lemma process_file_spec (f : string) (s : manager) :
  readable W (directory s) f ->
  exists r s' middle tail,
    process_file W f s = (r, s')
    /\ same_batch s s'
    /\ results s' = (results s ++ recorded_for W (directory s) (api_key s) f)%list
    /\ out s' =
       (out s ++ Progress (Lit ("Processing " ++ f ++ "...")) :: middle ++ tail)%list
    /\ ((exists record pre,
            recorded_for W (directory s) (api_key s) f = [record]
            /\ (pre = [] \/
                pre = [Print (WithExn "Error parsing JSON" JSONDecodeError)])
            /\ middle =
               (pre ++ [Progress (StrOf record);
                        Print (Lit ("Processed image "
                                      ++ path_join (directory s) f))])%list)
        \/ (exists e,
              recorded_for W (directory s) (api_key s) f = []
              /\ middle =
                 [Print (WithExn ("Error processing image "
                                    ++ path_join (directory s) f) e);
                  Print (Lit ("Error processing image "
                                ++ path_join (directory s) f))]))
    /\ (if Nat.eqb (completed_requests s + 1) (num_requests s)
        then
          match callback_outcome W (results s') (tokens s') with
          | Ok _ =>
              r = Ok tt
              /\ completed_requests s' = completed_requests s + 1
              /\ tail = [Completion (results s') (tokens s')]
          | Raise e =>
              match recorded_for W (directory s) (api_key s) f with
              | [] =>
                  r = Raise e
                  /\ completed_requests s' = completed_requests s + 1
                  /\ tail = [Completion (results s') (tokens s')]
              | _ :: _ =>
                  r = Ok tt
                  /\ completed_requests s' = completed_requests s + 2
                  /\ tail =
                     [Completion (results s') (tokens s');
                      Print (WithExn ("Error processing image "
                                        ++ path_join (directory s) f) e);
                      Print (Lit ("Error processing image "
                                    ++ path_join (directory s) f))]
              end
          end
        else
          r = Ok tt
          /\ completed_requests s' = completed_requests s + 1
          /\ tail = []).
Proof.
  intros [bytes Hr].
  rewrite (recorded_for_readable (directory s) (api_key s) f bytes Hr).
  unfold process_file, bind, get, progress_callback, modify.
  cbn [fst snd].
  rewrite (process_image_readable W _ _ bytes) by exact Hr.
  set (path := path_join (directory s) f).
  set (s0 := emit (Progress (Lit ("Processing " ++ f ++ "..."))) s).
  assert (B0 : same_batch s s0) by (repeat split).
  assert (C0 : completed_requests s0 = completed_requests s) by reflexivity.
  assert (O0 : out s0 = (out s ++ [Progress (Lit ("Processing " ++ f ++ "..."))])%list)
    by reflexivity.
  assert (N0 : num_requests s0 = num_requests s) by reflexivity.
  assert (R0 : results s0 = results s) by reflexivity.
  change (api_key s0) with (api_key s).
  clearbody s0.
  destruct (http_post W _) as [body|e].
  - pose proof (process_result_spec W path body s0) as C.
    pose proof (process_result_cases W path body s0) as F0.
    destruct (process_result W path body s0) as [[[]|e] s1];
      destruct F0 as [F _].
    + (* the request and [process_result] returned *)
      destruct C as [(Cq & N) (R & record & pre & Rec & O & H)].
      assert (B1 : same_batch s s1).
      { apply same_batch_trans with s0; [exact B0|].
        destruct F as (D & K & _ & N1 & F1). repeat split; assumption. }
      destruct (request_complete_cases (Lit ("Processed image " ++ path)) s1)
        as (r2 & s2 & E & B & R' & T' & C' & O' & Q).
      rewrite E. rewrite Cq, N, C0, N0 in O', Q.
      rewrite Rec in R |- *.
      destruct (Nat.eqb (completed_requests s + 1) (num_requests s)) eqn:Fire.
      * destruct (callback_outcome W (results s2) (tokens s2)) as [[]|e] eqn:Out;
          subst r2.
        -- exists (Ok tt), s2,
             (pre ++ [Progress (StrOf record);
                      Print (Lit ("Processed image " ++ path))])%list,
             [Completion (results s2) (tokens s2)].
           split; [reflexivity|].
           split; [now apply same_batch_trans with s1|].
           split; [rewrite R', R, R0; reflexivity|].
           split; [rewrite O', O, O0; rewrite <- !app_assoc; reflexivity|].
           split; [left; exists record, pre; auto|].
           rewrite Out. rewrite C', Cq, C0. auto.
        -- destruct (request_complete_cases
                       (Lit ("Error processing image " ++ path))
                       (emit (Print (WithExn ("Error processing image " ++ path) e)) s2))
             as (r3 & s3 & E3 & B3 & R3 & T3 & C3 & O3 & Q3).
           cbn [emit completed_requests num_requests out results tokens] in C3, O3, R3, T3, Q3.
           assert (Hne : Nat.eqb (completed_requests s2 + 1) (num_requests s2) = false).
           { apply Nat.eqb_eq in Fire. apply Nat.eqb_neq.
             destruct B as (_ & _ & N2 & _). rewrite C', N2, Cq, N, C0, N0. lia. }
           rewrite Hne in O3, Q3. subst r3.
           exists (Ok tt), s3,
             (pre ++ [Progress (StrOf record);
                      Print (Lit ("Processed image " ++ path))])%list,
             [Completion (results s3) (tokens s3);
              Print (WithExn ("Error processing image " ++ path) e);
              Print (Lit ("Error processing image " ++ path))].
           split; [exact E3|].
           split; [apply same_batch_trans with s1; [exact B1|];
                   apply same_batch_trans with s2; [exact B|];
                   apply same_batch_trans with (2 := B3); repeat split|].
           split; [rewrite R3, R', R, R0; reflexivity|].
           split; [rewrite O3, O', O, O0, R3, T3; rewrite <- !app_assoc; reflexivity|].
           split; [left; exists record, pre; auto|].
           rewrite R3, T3, Out. rewrite C3, C', Cq, C0.
           split; [reflexivity|]. split; [lia|reflexivity].
      * subst r2.
        exists (Ok tt), s2,
          (pre ++ [Progress (StrOf record);
                   Print (Lit ("Processed image " ++ path))])%list,
          [].
        split; [reflexivity|].
        split; [now apply same_batch_trans with s1|].
        split; [rewrite R', R, R0; reflexivity|].
        split; [rewrite O', O, O0; rewrite <- !app_assoc; reflexivity|].
        split; [left; exists record, pre; auto|].
        rewrite C', Cq, C0. auto.
    + (* [process_result] raised *)
      destruct C as [(Cq & N) (R & Rec & O)].
      assert (B1 : same_batch s s1).
      { apply same_batch_trans with s0; [exact B0|].
        destruct F as (D & K & _ & N1 & F1). repeat split; assumption. }
      destruct (request_complete_cases
                  (Lit ("Error processing image " ++ path))
                  (emit (Print (WithExn ("Error processing image " ++ path) e)) s1))
        as (r3 & s3 & E3 & B3 & R3 & T3 & C3 & O3 & Q3).
      cbn [emit completed_requests num_requests out results tokens] in C3, O3, R3, T3, Q3.
      rewrite Cq, N, C0, N0 in O3, Q3.
      rewrite Rec in R |- *. rewrite app_nil_r in R.
      exists r3, s3,
        [Print (WithExn ("Error processing image " ++ path) e);
         Print (Lit ("Error processing image " ++ path))],
        (if Nat.eqb (completed_requests s + 1) (num_requests s)
         then [Completion (results s3) (tokens s3)] else []).
      split; [exact E3|].
      split; [apply same_batch_trans with s1; [exact B1|];
              apply same_batch_trans with (2 := B3); repeat split|].
      split; [rewrite R3, R, R0, app_nil_r; reflexivity|].
      split; [rewrite O3, O, O0; rewrite <- !app_assoc; reflexivity|].
      split; [right; exists e; auto|].
      rewrite C3, Cq, C0.
      destruct (Nat.eqb (completed_requests s + 1) (num_requests s)).
      * destruct (callback_outcome W (results s3) (tokens s3)) as [[]|e']; auto.
      * auto.
  - (* the request raised *)
    destruct (request_complete_cases
                (Lit ("Error processing image " ++ path))
                (emit (Print (WithExn ("Error processing image " ++ path) e)) s0))
      as (r3 & s3 & E3 & B3 & R3 & T3 & C3 & O3 & Q3).
    cbn [emit completed_requests num_requests out results tokens] in C3, O3, R3, T3, Q3.
    rewrite C0, N0 in O3, Q3.
    exists r3, s3,
      [Print (WithExn ("Error processing image " ++ path) e);
       Print (Lit ("Error processing image " ++ path))],
      (if Nat.eqb (completed_requests s + 1) (num_requests s)
       then [Completion (results s3) (tokens s3)] else []).
    split; [exact E3|].
    split; [apply same_batch_trans with s0; [exact B0|];
            apply same_batch_trans with (2 := B3); repeat split|].
    split; [rewrite R3, R0, app_nil_r; reflexivity|].
    split; [rewrite O3, O0; rewrite <- !app_assoc; reflexivity|].
    split; [right; exists e; auto|].
    rewrite C3, C0.
    destruct (Nat.eqb (completed_requests s + 1) (num_requests s)).
    + destruct (callback_outcome W (results s3) (tokens s3)) as [[]|e']; auto.
    + auto.
Qed.

End Batch.

(** ** Runs of files *)

Section Runs.

Variable W : world.

(** A readable file when the completion callback is not due or returns:
    [process_file] returns and the file is counted once. *)
Lemma process_file_quiet (f : string) (s : manager) :
  readable W (directory s) f ->
  callback_returns W \/ completed_requests s + 1 <> num_requests s ->
  exists s' middle,
    process_file W f s = (Ok tt, s')
    /\ same_batch s s'
    /\ completed_requests s' = completed_requests s + 1
    /\ results s' = (results s ++ recorded_for W (directory s) (api_key s) f)%list
    /\ out s' =
       (out s ++ Progress (Lit ("Processing " ++ f ++ "...")) :: middle
        ++ if Nat.eqb (completed_requests s + 1) (num_requests s)
           then [Completion (results s') (tokens s')] else [])%list
    /\ ((exists record pre,
            recorded_for W (directory s) (api_key s) f = [record]
            /\ (pre = [] \/
                pre = [Print (WithExn "Error parsing JSON" JSONDecodeError)])
            /\ middle =
               (pre ++ [Progress (StrOf record);
                        Print (Lit ("Processed image "
                                      ++ path_join (directory s) f))])%list)
        \/ (exists e,
              recorded_for W (directory s) (api_key s) f = []
              /\ middle =
                 [Print (WithExn ("Error processing image "
                                    ++ path_join (directory s) f) e);
                  Print (Lit ("Error processing image "
                                ++ path_join (directory s) f))])).
Proof.
  intros Hr Hq.
  destruct (process_file_spec W f s Hr)
    as (r & s' & middle & tail & E & B & R & O & Shape & End).
  destruct (Nat.eqb_spec (completed_requests s + 1) (num_requests s)) as [Heq|Hne].
  - destruct Hq as [Hq|Hq]; [|contradiction].
    rewrite (Hq (results s') (tokens s')) in End.
    destruct End as (-> & C & ->).
    exists s', middle. auto 10.
  - destruct End as (-> & C & ->).
    exists s', middle. auto 10.
Qed.

(** What a readable file adds to the trace, counted: one message to the
    progress callback before the request and one for the record kept; one
    printed notification for each time the file is counted, which is once,
    or twice when the completion callback raises after the success
    notification; one call of the completion callback when the count
    reaches the number of requests. *)
Lemma process_file_counts (f : string) (s : manager) :
  readable W (directory s) f ->
  exists r s' added,
    process_file W f s = (r, s')
    /\ same_batch s s'
    /\ results s' = (results s ++ recorded_for W (directory s) (api_key s) f)%list
    /\ out s' = (out s ++ added)%list
    /\ List.length (filter is_progress added)
       = 1 + List.length (recorded_for W (directory s) (api_key s) f)
    /\ completed_requests s' =
       completed_requests s + List.length (filter is_notice added)
    /\ 1 <= List.length (filter is_notice added) <= 2
    /\ completions added =
       (if Nat.eqb (completed_requests s + 1) (num_requests s) then 1 else 0)
    /\ (callback_returns W \/ completed_requests s + 1 <> num_requests s ->
        r = Ok tt /\ List.length (filter is_notice added) = 1).
Proof.
  intros Hr.
  destruct (process_file_spec W f s Hr)
    as (r & s' & middle & tail & E & B & R & O & Shape & End).
  exists r, s', (Progress (Lit ("Processing " ++ f ++ "...")) :: middle ++ tail)%list.
  split; [exact E|]. split; [exact B|]. split; [exact R|]. split; [exact O|].
  unfold completions.
  cbn [filter is_progress is_notice is_completion]. rewrite !filter_app.
  cbn [List.length]. rewrite !length_app.
  assert (M : List.length (filter is_progress middle)
              = List.length (recorded_for W (directory s) (api_key s) f)
              /\ List.length (filter is_notice middle) = 1
              /\ List.length (filter is_completion middle) = 0).
  { destruct Shape as [(record & pre & Rec & Hpre & ->)|(e & Rec & ->)];
      rewrite Rec; [destruct Hpre as [-> | ->]|]; cbn; auto. }
  destruct M as (M1 & M2 & M3). rewrite M1, M2, M3.
  destruct (Nat.eqb_spec (completed_requests s + 1) (num_requests s)) as [Heq|Hne].
  - destruct (callback_outcome W (results s') (tokens s')) as [[]|e] eqn:Out.
    + destruct End as (-> & C & ->). cbn. rewrite C.
      do 4 (split; [lia|]). intros _. split; [reflexivity|lia].
    + destruct (recorded_for W (directory s) (api_key s) f) as [|rec recs];
        destruct End as (-> & C & ->); cbn; rewrite C;
        do 4 (split; [lia|]);
        (intros [H|H]; [|contradiction]);
        rewrite (H (results s') (tokens s')) in Out; discriminate.
  - destruct End as (-> & C & ->). cbn. rewrite C.
    do 4 (split; [lia|]). intros _. split; [reflexivity|lia].
Qed.

(** What any file leaves, readable or not, whatever the callback does. *)
Lemma process_file_any (f : string) (s : manager) :
  same_batch s (snd (process_file W f s))
  /\ completed_requests s <= completed_requests (snd (process_file W f s))
     <= completed_requests s
        + (if Nat.eqb (completed_requests s + 1) (num_requests s) then 2 else 1)
  /\ (callback_returns W ->
      completed_requests (snd (process_file W f s)) <= completed_requests s + 1)
  /\ exists added,
       results (snd (process_file W f s)) = (results s ++ added)%list
       /\ List.length added <= 1
       /\ Forall (fun r => truthy r = true \/ r = PDict []) added.
Proof.
  destruct (read_file W (path_join (directory s) f)) as [bytes|e] eqn:Hr.
  - destruct (process_file_counts f s)
      as (r & s' & added & E & B & R & O & P & C & N & K & Q);
      [now exists bytes|].
    rewrite E. cbn [snd]. split; [exact B|].
    split.
    { destruct (Nat.eqb_spec (completed_requests s + 1) (num_requests s)).
      - lia.
      - destruct Q as [_ Q]; [now right|]. lia. }
    split.
    { intros H. destruct Q as [_ Q]; [now left|]. lia. }
    exists (recorded_for W (directory s) (api_key s) f). split; [exact R|].
    unfold recorded_for.
    destruct (response W (directory s) (api_key s) f) as [body|e'];
      [|split; [cbn; lia|constructor]].
    unfold recorded.
    destruct (reported body "completion_tokens"); [|split; [cbn; lia|constructor]].
    destruct (reported body "prompt_tokens"); [|split; [cbn; lia|constructor]].
    destruct (fst (parse_openai_json_result W body _)) as [v|e'];
      [|split; [cbn; lia|constructor]].
    split; [cbn; lia|]. constructor; [|constructor].
    unfold record_of. destruct (truthy v) eqn:T; [left; exact T|now right].
  - rewrite (process_file_unreadable W f e s Hr). cbn [snd].
    split; [repeat split|].
    split; [destruct (Nat.eqb _ _); cbn; lia|].
    split; [intros _; cbn; lia|].
    exists []. cbn. rewrite app_nil_r. split; [reflexivity|]. split; [lia|constructor].
Qed.

(** A run of readable files in which the completion callback is not due
    before the last file, or returns: every file is processed, its records
    kept in order, and counted once, the last one possibly twice. *)
Lemma run_spec (fs : list string) (s : manager) :
  (forall f, In f fs -> readable W (directory s) f) ->
  callback_returns W
  \/ completed_requests s + List.length fs <= num_requests s ->
  exists r s' added,
    for_each fs (process_file W) s = (r, s')
    /\ same_batch s s'
    /\ results s' =
       (results s ++ flat_map (recorded_for W (directory s) (api_key s)) fs)%list
    /\ out s' = (out s ++ added)%list
    /\ List.length (filter is_progress added)
       = List.length fs
         + List.length (flat_map (recorded_for W (directory s) (api_key s)) fs)
    /\ completed_requests s' =
       completed_requests s + List.length (filter is_notice added)
    /\ List.length fs <= List.length (filter is_notice added) <= List.length fs + 1
    /\ (completed_requests s + List.length fs < num_requests s ->
        completions added = 0)
    /\ (callback_returns W
        \/ completed_requests s + List.length fs < num_requests s ->
        r = Ok tt /\ List.length (filter is_notice added) = List.length fs).
Proof.
  revert s; induction fs as [|f fs IH]; intros s Hr Hq.
  - exists (Ok tt), s, []. cbn. unfold ret. rewrite !app_nil_r.
    repeat split; lia.
  - destruct (process_file_counts f s (Hr f (or_introl eq_refl)))
      as (r1 & s1 & added1 & E & B & R & O & P & C & N & K & Q).
    cbn [List.length] in Hq.
    destruct fs as [|g fs].
    + (* the last file *)
      exists (match r1 with Ok _ => Ok tt | Raise e => Raise e end), s1, added1.
      cbn [for_each]. unfold bind, ret. rewrite E.
      split; [now destruct r1|].
      split; [exact B|].
      split; [cbn [flat_map]; now rewrite app_nil_r|].
      split; [exact O|].
      split; [cbn [flat_map List.length]; rewrite app_nil_r; lia|].
      split; [exact C|].
      split; [cbn [List.length]; lia|].
      split.
      { cbn [List.length]. intros Hlt. rewrite K.
        destruct (Nat.eqb_spec (completed_requests s + 1) (num_requests s)); lia. }
      cbn [List.length]. intros H.
      destruct Q as [-> Q]; [destruct H as [H|H]; [now left|right; lia]|].
      split; [reflexivity|exact Q].
    + (* a file before the last *)
      assert (Hq1 : callback_returns W
                    \/ completed_requests s + 1 <> num_requests s).
      { destruct Hq as [Hq|Hq]; [now left|right]. cbn [List.length] in Hq. lia. }
      destruct (Q Hq1) as [-> N1].
      destruct B as (D & Ky & Nq & F).
      destruct (IH s1) as (r & s' & added & E' & B' & R' & O' & P' & C' & N' & K' & Q').
      { intros h Hh. rewrite D. apply Hr. now right. }
      { destruct Hq as [Hq|Hq]; [now left|right].
        rewrite C, N1, Nq. cbn [List.length] in *. lia. }
      rewrite D, Ky in R', P'.
      exists r, s', (added1 ++ added)%list.
      cbn [for_each]. unfold bind. rewrite E.
      split; [exact E'|].
      split; [apply same_batch_trans with s1; [repeat split; assumption|exact B']|].
      split; [rewrite R', R; cbn [flat_map]; now rewrite <- !app_assoc|].
      split; [rewrite O', O, <- app_assoc; reflexivity|].
      rewrite !filter_app, !length_app, completions_app.
      split; [rewrite P, P'; cbn [flat_map List.length]; rewrite !length_app;
              cbn [List.length]; lia|].
      split; [rewrite C', C; lia|].
      split; [rewrite N1; cbn [List.length] in *; lia|].
      split.
      { intros Hlt.
        assert (Hne : Nat.eqb (completed_requests s + 1) (num_requests s) = false)
          by (apply Nat.eqb_neq; cbn [List.length] in Hlt; lia).
        rewrite K, Hne, K'; [reflexivity|].
        rewrite C, N1, Nq. cbn [List.length] in *. lia. }
      intros H. destruct Q' as [-> Q'].
      { destruct H as [H|H]; [now left|right].
        rewrite C, N1, Nq. cbn [List.length] in *. lia. }
      split; [reflexivity|]. rewrite N1, Q'. reflexivity.
Qed.

(** As long as the count stays below the number of requests, the files are
    counted one by one and the completion callback is not invoked. *)
Lemma files_before_the_last (fs : list string) (s : manager) :
  (forall f, In f fs -> readable W (directory s) f) ->
  completed_requests s + List.length fs < num_requests s ->
  exists s',
    for_each fs (process_file W) s = (Ok tt, s')
    /\ same_batch s s'
    /\ completed_requests s' = completed_requests s + List.length fs
    /\ completions (out s') = completions (out s).
Proof.
  intros Hr Hlt.
  destruct (run_spec fs s Hr) as (r & s' & added & E & B & _ & O & _ & C & _ & K & Q);
    [right; lia|].
  destruct Q as [-> Q]; [now right|].
  exists s'. split; [exact E|]. split; [exact B|].
  split; [rewrite C, Q; reflexivity|].
  rewrite O, completions_app, (K Hlt). lia.
Qed.

Lemma tally_add_zero (t : tally) : tally_add t zero = t.
Proof. destruct t. unfold tally_add, zero. cbn. f_equal; lia. Qed.

Lemma tally_add_assoc (a b c : tally) :
  tally_add (tally_add a b) c = tally_add a (tally_add b c).
Proof. unfold tally_add. cbn. f_equal; lia. Qed.

(** The tally after a file whose response reports the prompt count when it
    reports the completion count. *)
Lemma tally_after_a_file (f : string) (s : manager) :
  (forall body,
      response W (directory s) (api_key s) f = Ok body ->
      reported body "completion_tokens" <> None ->
      reported body "prompt_tokens" <> None) ->
  tokens (snd (process_file W f s))
  = tally_add (tokens s) (usage_of (response W (directory s) (api_key s) f)).
Proof.
  intros Hf. rewrite process_file_tokens. unfold usage_of.
  destruct (response W (directory s) (api_key s) f) as [body|e];
    [|now rewrite tally_add_zero].
  specialize (Hf body eq_refl).
  destruct (reported body "completion_tokens") as [c|].
  - destruct (reported body "prompt_tokens") as [p|].
    + reflexivity.
    + exfalso. now apply Hf.
  - destruct (reported body "prompt_tokens"); now rewrite tally_add_zero.
Qed.

(** The tally after a run of files that can all be read. *)
Lemma tally_after_files (fs : list string) (s : manager) :
  (forall f, In f fs -> readable W (directory s) f) ->
  (forall f body,
      In f fs -> response W (directory s) (api_key s) f = Ok body ->
      reported body "completion_tokens" <> None ->
      reported body "prompt_tokens" <> None) ->
  callback_returns W
  \/ completed_requests s + List.length fs <= num_requests s ->
  tokens (snd (for_each fs (process_file W) s))
  = tally_add (tokens s) (total_usage W (directory s) (api_key s) fs).
Proof.
  revert s; induction fs as [|f fs IH]; intros s Hr Hu Hq.
  - cbn [for_each total_usage]. unfold ret. cbn [snd]. now rewrite tally_add_zero.
  - pose proof (tally_after_a_file f s (fun body => Hu f body (or_introl eq_refl))) as T.
    destruct (process_file_counts f s (Hr f (or_introl eq_refl)))
      as (r1 & s1 & added1 & E & B & R & O & P & C & N & K & Q).
    rewrite E in T. cbn [snd] in T.
    cbn [for_each total_usage]. unfold bind. rewrite E.
    destruct fs as [|g fs].
    + cbn [for_each total_usage]. unfold ret.
      rewrite tally_add_zero.
      destruct r1; exact T.
    + assert (Hq1 : callback_returns W
                    \/ completed_requests s + 1 <> num_requests s).
      { destruct Hq as [Hq|Hq]; [now left|right]. cbn [List.length] in Hq. lia. }
      destruct (Q Hq1) as [-> N1].
      destruct B as (D & Ky & Nq & F).
      rewrite IH.
      * rewrite T, D, Ky, tally_add_assoc. reflexivity.
      * intros h Hh. rewrite D. apply Hr. now right.
      * intros h body Hh. rewrite D, Ky. apply Hu. now right.
      * destruct Hq as [Hq|Hq]; [now left|right].
        rewrite C, N1, Nq. cbn [List.length] in *. lia.
Qed.

End Runs.
(** ** Collecting the files *)

Lemma set_files_same (s : manager) : set_files (files s) s = s.
Proof. now destruct s. Qed.

Lemma collect_loop (W : world) (entries : list string) (s : manager) :
  for_each entries
    (fun file =>
       if is_image_name file
       then modify (fun s => set_files (files s ++ [file]) s)
       else ret tt) s
  = (Ok tt, set_files (files s ++ filter is_image_name entries) s).
Proof.
  revert s; induction entries as [|x entries IH]; intros s.
  - cbn [for_each filter]. unfold ret. now rewrite app_nil_r, set_files_same.
  - cbn [for_each filter]. unfold bind.
    destruct (is_image_name x).
    + unfold modify at 1. rewrite IH.
      cbn [set_files files directory api_key completed_requests num_requests
           results tokens out].
      now rewrite <- app_assoc.
    + unfold ret at 1. apply IH.
Qed.

(** [__init__] leaves in [files] the entries that pass the test, in the order
    of the listing, and their number in [num_requests]. *)
Lemma init_collects (W : world) (dir key : string) (entries : list string) :
  listdir W dir = Ok entries ->
  __init__ W dir key =
  (Ok tt,
   set_num_requests (List.length (filter is_image_name entries))
     (set_files (filter is_image_name entries) (blank dir key))).
Proof.
  intros H. unfold __init__, collect_files, bind, get, eval.
  cbn [blank directory]. rewrite H.
  rewrite (collect_loop W). reflexivity.
Qed.


(** ** The tracker, for any number of notifications *)

(** The count after the notifications for [msgs], and the number of times
    they invoked the completion callback, whatever the callback did. *)
Lemma notify_all_counts (W : world) (msgs : list message) (s : manager) :
  completed_requests (notify_all W msgs s)
  = completed_requests s + List.length msgs
  /\ num_requests (notify_all W msgs s) = num_requests s
  /\ completions (out (notify_all W msgs s)) =
     completions (out s)
     + (if ((completed_requests s <? num_requests s)
            && (num_requests s <=? completed_requests s + List.length msgs))%nat
        then 1 else 0).
Proof.
  revert s; induction msgs as [|m msgs IH]; intros s.
  - cbn [notify_all fold_left List.length].
    split; [lia|]. split; [reflexivity|].
    destruct (Nat.ltb_spec (completed_requests s) (num_requests s));
      destruct (Nat.leb_spec (num_requests s) (completed_requests s + 0));
      cbn [andb]; lia.
  - destruct (request_complete_cases W m s) as (r & s1 & E & B & _ & _ & C & O & _).
    destruct B as (_ & _ & N & _).
    destruct (IH s1) as (C' & N' & O').
    assert (Hs : notify_all W (m :: msgs) s = notify_all W msgs s1)
      by (unfold notify_all; cbn [fold_left]; now rewrite E).
    rewrite Hs. cbn [List.length].
    split; [lia|]. split; [congruence|].
    rewrite O', O, completions_app, C, N.
    destruct (Nat.eqb_spec (completed_requests s + 1) (num_requests s));
      destruct (Nat.ltb_spec (completed_requests s + 1) (num_requests s));
      destruct (Nat.leb_spec (num_requests s)
                  (completed_requests s + 1 + List.length msgs));
      destruct (Nat.ltb_spec (completed_requests s) (num_requests s));
      destruct (Nat.leb_spec (num_requests s)
                  (completed_requests s + S (List.length msgs)));
      cbn; lia.
Qed.

(** With a callback that returns, every notification returns. *)
Lemma notify_all_returning (W : world) (msgs : list message) (s : manager) :
  callback_returns W ->
  for_each msgs (request_complete W) s = (Ok tt, notify_all W msgs s).
Proof.
  intros Hq. revert s; induction msgs as [|m msgs IH]; intros s.
  - reflexivity.
  - destruct (request_complete_cases W m s) as (r & s1 & E & _ & _ & _ & _ & _ & Q).
    assert (Hr : r = Ok tt).
    { rewrite Q. destruct (Nat.eqb _ _); [apply Hq|reflexivity]. }
    rewrite Hr in E. clear Q Hr.
    cbn [for_each]. unfold bind. rewrite E, IH.
    unfold notify_all. cbn [fold_left]. now rewrite E.
Qed.

(** ** A batch run from a manager just built *)

(** In a batch of N >= 1 readable files the completion callback is invoked
    by the notification of the last file and by no other: N printed
    notifications come before the call and none of the events around it is a
    call.  When the callback returns, the call is the last event.  When it
    raises after the failure notification, the exception leaves
    [_process_files]; when it raises after the success notification, the
    [except] branch of [process_image] prints the error and notifies the
    file a second time. *)
Lemma fresh_batch_spec (W : world) (s : manager) :
  1 <= num_requests s ->
  num_requests s = List.length (files s) ->
  completed_requests s = 0 ->
  (forall f, In f (files s) -> readable W (directory s) f) ->
  exists r s' before after,
    _process_files W s = (r, s')
    /\ results s' =
       (results s
        ++ flat_map (recorded_for W (directory s) (api_key s)) (files s))%list
    /\ out s' =
       (out s ++ before ++ Completion (results s') (tokens s') :: after)%list
    /\ completions before = 0
    /\ completions after = 0
    /\ List.length (filter is_notice before) = num_requests s
    /\ match callback_outcome W (results s') (tokens s') with
       | Ok _ =>
           r = Ok tt /\ after = []
           /\ completed_requests s' = num_requests s
       | Raise e =>
           (r = Raise e /\ after = []
            /\ completed_requests s' = num_requests s)
           \/ (r = Ok tt
               /\ (exists f,
                      In f (files s)
                      /\ after =
                         [Print (WithExn ("Error processing image "
                                            ++ path_join (directory s) f) e);
                          Print (Lit ("Error processing image "
                                        ++ path_join (directory s) f))])
               /\ completed_requests s' = num_requests s + 1)
       end.
Proof.
  intros Hn Hlen Hc Hr.
  unfold _process_files, bind, get. cbn [fst snd].
  destruct (exists_last (l := files s)) as (fs0 & f & Hfs).
  { intros E. rewrite E in Hlen. cbn in Hlen. lia. }
  assert (Hl0 : List.length (files s) = List.length fs0 + 1)
    by (rewrite Hfs, length_app; reflexivity).
  assert (Hin : In f (files s))
    by (rewrite Hfs; apply in_or_app; right; now left).
  destruct (run_spec W fs0 s)
    as (r0 & s1 & added0 & E0 & B0 & R0 & O0 & _ & C0 & _ & K0 & Q0).
  { intros g Hg. apply Hr. rewrite Hfs. apply in_or_app. now left. }
  { right. lia. }
  destruct Q0 as [-> N0]; [right; lia|].
  specialize (K0 ltac:(lia)).
  destruct B0 as (D0 & Ky0 & Nq0 & F0).
  destruct (process_file_spec W f s1)
    as (r & s' & middle & tail & E & B & R & O & Shape & End).
  { rewrite D0. now apply Hr. }
  rewrite D0, Ky0 in R, Shape, End.
  assert (Heq : Nat.eqb (completed_requests s1 + 1) (num_requests s1) = true)
    by (apply Nat.eqb_eq; lia).
  rewrite Heq in End.
  assert (M : completions middle = 0 /\ List.length (filter is_notice middle) = 1).
  { destruct Shape as [(record & pre & Rec & Hpre & ->)|(e & Rec & ->)];
      [destruct Hpre as [-> | ->]|]; split; reflexivity. }
  destruct M as (M1 & M2).
  assert (Hrun : for_each (files s) (process_file W) s
                 = (match r with Ok _ => Ok tt | Raise e => Raise e end, s')).
  { rewrite Hfs at 1. rewrite for_each_app, E0. cbn [for_each]. unfold bind, ret.
    rewrite E. now destruct r. }
  assert (Hres : results s' =
                 (results s
                  ++ flat_map (recorded_for W (directory s) (api_key s)) (files s))%list).
  { rewrite R, R0, Hfs, flat_map_app. cbn [flat_map].
    now rewrite app_nil_r, <- app_assoc. }
  assert (Hbefore : completions
                      (added0 ++ Progress (Lit ("Processing " ++ f ++ "...")) :: middle)
                    = 0
                    /\ List.length
                         (filter is_notice
                            (added0
                             ++ Progress (Lit ("Processing " ++ f ++ "...")) :: middle))
                       = num_requests s).
  { rewrite completions_app, filter_app, length_app.
    unfold completions at 2. cbn [filter is_completion is_notice].
    fold (completions middle). rewrite K0, M1, M2. lia. }
  destruct Hbefore as (Hb1 & Hb2).
  destruct (callback_outcome W (results s') (tokens s')) as [[]|e] eqn:Out.
  - destruct End as (-> & C & ->).
    exists (Ok tt), s',
      (added0 ++ Progress (Lit ("Processing " ++ f ++ "...")) :: middle)%list, [].
    split; [exact Hrun|]. split; [exact Hres|].
    split; [rewrite O, O0, <- !app_assoc; reflexivity|].
    split; [exact Hb1|]. split; [reflexivity|]. split; [exact Hb2|].
    rewrite Out. split; [reflexivity|]. split; [reflexivity|]. lia.
  - destruct (recorded_for W (directory s) (api_key s) f) as [|rec recs].
    + destruct End as (-> & C & ->).
      exists (Raise e), s',
        (added0 ++ Progress (Lit ("Processing " ++ f ++ "...")) :: middle)%list, [].
      split; [exact Hrun|]. split; [exact Hres|].
      split; [rewrite O, O0, <- !app_assoc; reflexivity|].
      split; [exact Hb1|]. split; [reflexivity|]. split; [exact Hb2|].
      rewrite Out. left. split; [reflexivity|]. split; [reflexivity|]. lia.
    + destruct End as (-> & C & ->).
      exists (Ok tt), s',
        (added0 ++ Progress (Lit ("Processing " ++ f ++ "...")) :: middle)%list,
        [Print (WithExn ("Error processing image " ++ path_join (directory s) f) e);
         Print (Lit ("Error processing image " ++ path_join (directory s) f))].
      split; [exact Hrun|]. split; [exact Hres|].
      split; [rewrite O, O0, <- !app_assoc; reflexivity|].
      split; [exact Hb1|]. split; [reflexivity|]. split; [exact Hb2|].
      rewrite Out. right. split; [reflexivity|].
      split; [exists f; split; [exact Hin|reflexivity]|]. lia.
Qed.

(** ** The claims *)

(** A batch without files: when no entry of the directory passes the test
    of [collect_files], the manager is built with no file and no request to
    wait for, and [_process_files] returns at once, leaving the state as it
    was: the completion callback is not invoked, nothing is reported,
    nothing is counted. *)
Lemma empty_batch_is_a_no_op (W : world) (dir key : string) (entries : list string) :
  listdir W dir = Ok entries ->
  filter is_image_name entries = [] ->
  exists s,
    __init__ W dir key = (Ok tt, s)
    /\ files s = [] /\ num_requests s = 0 /\ completed_requests s = 0
    /\ results s = [] /\ tokens s = zero /\ out s = []
    /\ _process_files W s = (Ok tt, s).
Proof.
  intros Hl He. rewrite (init_collects W dir key entries Hl), He.
  eexists. split; [reflexivity|].
  repeat split.
Qed.

(** C5.  The code at the failing input: a directory whose only image is
    named [notes.JPG].  [scan_files] finds it, so the window has a file and
    [validate] lets [on_process_files] go on, which disables the button,
    starts the progress bar and builds the manager.  [collect_files] keeps
    no file: the batch is empty, [_process_files] returns at once, and the
    completion callback, which alone enables the button again, has not been
    invoked and would not be by any number of notifications. *)
Theorem empty_batch_never_completes :
  scan_files text_only_window_world "d" = Ok (MainWindow.files ready_window)
  /\ MainWindow.validate ready_window = (Ok true, [])
  /\ exists s,
       __init__ text_only_window_world "d" "k" = (Ok tt, s)
       /\ files s = []
       /\ num_requests s = 0
       /\ _process_files text_only_window_world s = (Ok tt, s)
       /\ completions (out s) = 0
       /\ forall msgs,
            completions (out (notify_all text_only_window_world msgs s)) = 0.
Proof.
  split; [reflexivity|]. split; [reflexivity|].
  destruct (empty_batch_is_a_no_op text_only_window_world "d" "k"
              ["c.txt"; "d"; "notes.JPG"] eq_refl eq_refl)
    as (s & E & F & N & C & R & T & O & P).
  exists s. split; [exact E|]. split; [exact F|]. split; [exact N|].
  split; [exact P|]. split; [now rewrite O|].
  intros msgs.
  destruct (notify_all_counts text_only_window_world msgs s) as (_ & _ & K).
  rewrite K, O, N. cbn. reflexivity.
Qed.

(** C6.  In a batch of N >= 1 files whose images can be read, so that
    every file reaches its notification, the completion callback is invoked
    exactly once, whether it returns or raises: the call is made when the
    N-th notification has been printed and counted, no event before or
    after it is a call, and after any k < N files the callback has not been
    invoked.  When the callback returns, the call is the last event of the
    batch and the count is N. *)
Theorem completion_fires_once_at_the_last_file (W : world) (s : manager) :
  1 <= num_requests s ->
  num_requests s = List.length (files s) ->
  completed_requests s = 0 ->
  (forall f, In f (files s) -> readable W (directory s) f) ->
  exists r s' before after,
    _process_files W s = (r, s')
    /\ out s' =
       (out s ++ before ++ Completion (results s') (tokens s') :: after)%list
    /\ completions before = 0
    /\ completions after = 0
    /\ completions (out s') = completions (out s) + 1
    /\ List.length (filter is_notice before) = num_requests s
    /\ (forall k, k < num_requests s ->
          exists sk,
            for_each (firstn k (files s)) (process_file W) s = (Ok tt, sk)
            /\ completed_requests sk = k
            /\ completions (out sk) = completions (out s))
    /\ (callback_outcome W (results s') (tokens s') = Ok tt ->
        r = Ok tt /\ after = [] /\ completed_requests s' = num_requests s).
Proof.
  intros Hn Hlen Hc Hr.
  destruct (fresh_batch_spec W s Hn Hlen Hc Hr)
    as (r & s' & before & after & E & _ & O & Hb & Ha & Nb & End).
  exists r, s', before, after.
  split; [exact E|]. split; [exact O|]. split; [exact Hb|]. split; [exact Ha|].
  split.
  { rewrite O, !completions_app. change (Completion (results s') (tokens s') :: after)
      with ([Completion (results s') (tokens s')] ++ after)%list.
    rewrite completions_app, Hb, Ha. cbn. lia. }
  split; [exact Nb|].
  split.
  - intros k Hk.
    destruct (files_before_the_last W (firstn k (files s)) s) as (sk & Ek & _ & Ck & Ok).
    { intros g Hg. apply Hr. rewrite <- (firstn_skipn k (files s)).
      apply in_or_app. now left. }
    { rewrite length_firstn. lia. }
    exists sk. split; [exact Ek|]. split; [|exact Ok].
    rewrite Ck, length_firstn. lia.
  - intros Out. rewrite Out in End. exact End.
Qed.

(** C4, as the code has it.  In a batch whose images can all be read and
    whose responses report the prompt count whenever they report the
    completion count, run from a manager just built (or from any state, if
    the completion callback returns), the tally grows by the sum of the
    counts of every response that reports them, whether or not its content
    was parsed; a request that raised, and a response without counts, add
    nothing.  [_process_files] returns when the callback does. *)
Theorem tally_sums_every_reported_usage (W : world) (s : manager) :
  (forall f, In f (files s) -> readable W (directory s) f) ->
  (forall f body,
      In f (files s) -> response W (directory s) (api_key s) f = Ok body ->
      reported body "completion_tokens" <> None ->
      reported body "prompt_tokens" <> None) ->
  callback_returns W
  \/ completed_requests s + List.length (files s) <= num_requests s ->
  exists r s',
    _process_files W s = (r, s')
    /\ tokens s' =
       tally_add (tokens s) (total_usage W (directory s) (api_key s) (files s))
    /\ (callback_returns W -> r = Ok tt).
Proof.
  intros Hr Hu Hq. unfold _process_files, bind, get. cbn [fst snd].
  pose proof (tally_after_files W (files s) s Hr Hu Hq) as T.
  destruct (run_spec W (files s) s Hr Hq) as (r & s' & added & E & _ & _ & _ & _ & _ & _ & _ & Q).
  rewrite E in T. cbn [snd] in T.
  exists r, s'. split; [exact E|]. split; [exact T|].
  intros H. now destruct Q as [-> _]; [left|].
Qed.

(** C4, as the specification words it, fails: the content of the only
    response has no code block, so nothing is parsed and no record is kept,
    and yet the counts of that response are in the final tally. *)
Lemma unparsed_response_is_tallied :
  exists s0 s',
    __init__ unfenced_world "d" "k" = (Ok tt, s0)
    /\ _process_files unfenced_world s0 = (Ok tt, s')
    /\ results s' = []
    /\ tally_of_parsed unfenced_world "d" "k" (files s0) = zero
    /\ tokens s' = {| prompt_tokens := 5; completion_tokens := 7 |}
    /\ tokens s' <> tally_of_parsed unfenced_world "d" "k" (files s0).
Proof.
  eexists. eexists.
  split; [vm_compute; reflexivity|].
  split; [vm_compute; reflexivity|].
  split; [reflexivity|].
  split; [vm_compute; reflexivity|].
  split; [reflexivity|].
  vm_compute. discriminate.
Qed.

(** Neither counter is lower after [process_result] than before it, when
    the counts the response reports are at least zero. *)
Lemma process_result_never_decreases
    (W : world) (path : string) (body : pyval) (s : manager) :
  nonneg_usage body = true ->
  (prompt_tokens (tokens s)
   <= prompt_tokens (tokens (snd (process_result W path body s))))%Z
  /\ (completion_tokens (tokens s)
      <= completion_tokens (tokens (snd (process_result W path body s))))%Z.
Proof.
  intros H. rewrite process_result_tokens. unfold nonneg_usage in H.
  apply andb_prop in H as [Hp Hc].
  destruct (reported body "completion_tokens") as [c|]; [|lia].
  apply Z.leb_le in Hc.
  destruct (reported body "prompt_tokens") as [p|]; cbn; [|lia].
  apply Z.leb_le in Hp. lia.
Qed.

(** C10.  Where every count the responses report is at least zero, neither
    counter is lower after any run of files of the batch than before it; the
    counters are zero in a manager just built. *)
Theorem tally_never_decreases (W : world) (fs : list string) (s : manager) :
  (forall f body,
      In f fs -> response W (directory s) (api_key s) f = Ok body ->
      nonneg_usage body = true) ->
  (prompt_tokens (tokens s)
   <= prompt_tokens (tokens (snd (for_each fs (process_file W) s))))%Z
  /\ (completion_tokens (tokens s)
      <= completion_tokens (tokens (snd (for_each fs (process_file W) s))))%Z
  /\ forall dir key, tokens (snd (__init__ W dir key)) = zero.
Proof.
  intros Hu. rewrite <- and_assoc. split.
  - revert s Hu; induction fs as [|f fs IH]; intros s Hu.
    + cbn. lia.
    + cbn [for_each]. unfold bind.
      pose proof (process_file_tokens W f s) as T.
      assert (Hstep : (prompt_tokens (tokens s)
                       <= prompt_tokens (tokens (snd (process_file W f s))))%Z
                      /\ (completion_tokens (tokens s)
                          <= completion_tokens (tokens (snd (process_file W f s))))%Z).
      { rewrite T. pose proof (Hu f) as Hf.
        specialize Hf with (1 := or_introl eq_refl).
        destruct (response W (directory s) (api_key s) f) as [body|e]; [|lia].
        specialize (Hf body eq_refl). unfold nonneg_usage in Hf.
        apply andb_prop in Hf as [Hp Hc].
        destruct (reported body "completion_tokens") as [c|]; [|lia].
        apply Z.leb_le in Hc.
        destruct (reported body "prompt_tokens") as [p|]; cbn; [|lia].
        apply Z.leb_le in Hp. lia. }
      destruct (process_file_any W f s) as ((D & K & _) & _).
      destruct (process_file W f s) as [[[]|e] s1]; cbn [snd] in *.
      * specialize (IH s1). rewrite D, K in IH.
        destruct IH as [I1 I2]; [intros g body Hg; apply Hu; now right|].
        lia.
      * exact Hstep.
  - intros dir key. unfold __init__, collect_files, bind, get, eval.
    cbn [blank directory].
    destruct (listdir W dir) as [entries|e]; [|reflexivity].
    rewrite (collect_loop W). reflexivity.
Qed.

(** The parser on the envelopes it cannot parse, in any world: it returns
    [None] without raising for a content whose embedded text [json.loads]
    refuses with a [JSONDecodeError]; for a content without a fence it
    raises [IndexError], and for an envelope without [choices], or with an
    empty list of choices, it raises [KeyError] or [IndexError]. *)
Lemma parser_returns_none_for_undecodable_text_only
    (W : world) (result : pyval) (s : manager) :
  (forall content txt,
      first_choice_content result content ->
      embedded_json content = Some txt ->
      json_loads W txt = Raise JSONDecodeError ->
      parse_openai_json_result W result s =
      (Ok PNone, emit (Print (WithExn "Error parsing JSON" JSONDecodeError)) s))
  /\ (forall content,
         first_choice_content result content ->
         ~ occurs fence content ->
         parse_openai_json_result W result s = (Raise IndexError, s))
  /\ (forall d,
         result = PDict d -> dict_get d "choices" = None ->
         parse_openai_json_result W result s = (Raise (KeyError (KStr "choices")), s))
  /\ (forall d,
         result = PDict d -> dict_get d "choices" = Some (PList []) ->
         parse_openai_json_result W result s = (Raise IndexError, s)).
Proof.
  repeat split.
  - intros content txt Hc He Hj.
    apply first_choice_message_content in Hc.
    rewrite (parse_embedded W result content txt s Hc He), Hj. reflexivity.
  - intros content Hc Hn.
    apply first_choice_message_content in Hc.
    rewrite parse_unfold, Hc. cbn [py_split].
    rewrite (split_without_fence content Hn). reflexivity.
  - intros d -> Hd. rewrite parse_unfold. unfold message_content.
    cbn [getitem]. rewrite Hd. reflexivity.
  - intros d -> Hd. rewrite parse_unfold. unfold message_content.
    cbn [getitem]. rewrite Hd. reflexivity.
Qed.

(** C3.  The code at the failing inputs.  On a well-formed envelope whose
    content has no code block the parser raises [IndexError]; on an envelope
    whose list of choices is empty it raises [IndexError], and on one
    without choices [KeyError]: the subscripts stand outside the parser's
    [try].  The sibling path, a code block whose text is not JSON, returns
    [None] as the claim says.  The caller is written for [None]: after the
    sibling path it appends the empty record; after the raise it appends
    nothing and the file is reported as an error by [process_image]. *)
Theorem parser_raises_without_fence_or_choice :
  (first_choice_content (envelope "no code block" 5 7) "no code block"
   /\ ~ occurs fence "no code block"
   /\ parse_openai_json_result unfenced_world (envelope "no code block" 5 7)
        (blank "d" "k")
      = (Raise IndexError, blank "d" "k"))
  /\ parse_openai_json_result unfenced_world (PDict [("choices", PList [])])
       (blank "d" "k")
     = (Raise IndexError, blank "d" "k")
  /\ parse_openai_json_result unfenced_world (PDict []) (blank "d" "k")
     = (Raise (KeyError (KStr "choices")), blank "d" "k")
  /\ parse_openai_json_result oops_world (envelope (fenced "{oops") 5 7)
       (blank "d" "k")
     = (Ok PNone,
        emit (Print (WithExn "Error parsing JSON" JSONDecodeError)) (blank "d" "k"))
  /\ (exists s',
        _process_files oops_world oops_start = (Ok tt, s')
        /\ results s' = [PDict []]
        /\ progress_sink (out s') =
           [Lit "Processing a.jpg...";
            WithExn "Error parsing JSON" JSONDecodeError;
            StrOf (PDict []);
            Lit "Processed image d/a.jpg"])
  /\ (exists s0 s',
        __init__ unfenced_world "d" "k" = (Ok tt, s0)
        /\ _process_files unfenced_world s0 = (Ok tt, s')
        /\ results s' = []
        /\ progress_sink (out s') =
           [Lit "Processing a.jpg...";
            WithExn "Error processing image d/a.jpg" IndexError;
            Lit "Error processing image d/a.jpg"]).
Proof.
  split; [split; [|split]|].
  - apply first_choice_message_content. reflexivity.
  - apply partition_none. reflexivity.
  - reflexivity.
  - split; [reflexivity|]. split; [reflexivity|]. split; [reflexivity|].
    split.
    + eexists. split; [vm_compute; reflexivity|]. split; reflexivity.
    + eexists. eexists. split; [vm_compute; reflexivity|].
      split; [vm_compute; reflexivity|]. split; reflexivity.
Qed.

(** C9.  For every envelope whose first choice's message content is the
    code block around the JSON text of the object with the key [a] and the
    value [b], and every world whose [json.loads] decodes that text to the
    mapping of [a] to [b], the parser returns exactly that mapping, and has
    no effect. *)
Theorem parser_yields_the_fenced_object
    (W : world) (result : pyval) (s : manager) :
  first_choice_content result (fenced ab_text) ->
  json_loads W ab_text = Ok ab_dict ->
  parse_openai_json_result W result s = (Ok ab_dict, s).
Proof.
  intros Hc Hj. apply first_choice_message_content in Hc.
  rewrite (parse_embedded W result (fenced ab_text) ab_text s Hc).
  - now rewrite Hj.
  - reflexivity.
Qed.

(** C8.  For every response of the remote service, which reports its two
    usage counts, whose content has a fence around a text [json.loads]
    refuses, [process_result] returns and has appended the empty record to
    the results, which thus hold one entry for the file; the empty record
    is what the progress callback is given, after the parser's message. *)
Theorem undecodable_text_appends_the_empty_record
    (W : world) (path : string) (result : pyval) (content txt : string)
    (p c : Z) (s : manager) :
  reported result "prompt_tokens" = Some p ->
  reported result "completion_tokens" = Some c ->
  first_choice_content result content ->
  embedded_json content = Some txt ->
  json_loads W txt = Raise JSONDecodeError ->
  exists s',
    process_result W path result s = (Ok tt, s')
    /\ results s' = (results s ++ [PDict []])%list
    /\ out s' = (out s ++ [Print (WithExn "Error parsing JSON" JSONDecodeError);
                           Progress (StrOf (PDict []))])%list.
Proof.
  intros Hp Hq Hc He Hj. apply first_choice_message_content in Hc.
  unfold reported, and_then in Hp, Hq.
  unfold process_result, bind, eval, get, modify, progress_callback.
  destruct (getitem result (KStr "usage")) as [u|]; [|discriminate].
  cbn [fst snd].
  destruct (getitem u (KStr "completion_tokens")) as [vc|]; [|discriminate].
  destruct (getitem u (KStr "prompt_tokens")) as [vp|]; [|discriminate].
  destruct vc; try discriminate; destruct vp; try discriminate;
    cbn [int_add fst snd set_tokens tokens prompt_tokens completion_tokens];
    rewrite (parse_embedded W result content txt _ Hc He), Hj;
    cbn [truthy]; eexists; (split; [reflexivity|]);
    cbn [emit set_results set_tokens results out];
    (split; [reflexivity|]); now rewrite <- app_assoc.
Qed.



(** An image that cannot be read ends the loop of [_process_files]: the
    exception leaves [process_image] before its [try]. *)
Lemma unreadable_image_ends_the_loop
    (W : world) (f : string) (rest : list string) (e : exn) (s : manager) :
  read_file W (path_join (directory s) f) = Raise e ->
  for_each (f :: rest) (process_file W) s =
  (Raise e, emit (Progress (Lit ("Processing " ++ f ++ "..."))) s).
Proof.
  intros H. cbn [for_each]. unfold bind.
  now rewrite (process_file_unreadable W f e s H).
Qed.

(** C1.  The code at the failing input: the first of two images cannot be
    opened; [_process_files] raises [OSError], the file is not counted, the
    second image is never processed and the completion callback is never
    invoked. *)
Theorem unreadable_image_aborts_the_batch :
  exists s0 s',
    __init__ unreadable_world "d" "k" = (Ok tt, s0)
    /\ files s0 = ["a.jpg"; "b.jpg"]
    /\ _process_files unreadable_world s0 = (Raise OSError, s')
    /\ completed_requests s' = 0
    /\ results s' = []
    /\ out s' = [Progress (Lit "Processing a.jpg...")].
Proof.
  eexists. eexists.
  split; [vm_compute; reflexivity|].
  split; [reflexivity|].
  split; [vm_compute; reflexivity|].
  repeat split.
Qed.

(** The sibling path: when it is the request for the first image that
    fails, the batch goes on to the second image and completes. *)
Lemma failed_request_does_not_abort_the_batch :
  exists s0 s',
    __init__ flaky_world "d" "k" = (Ok tt, s0)
    /\ _process_files flaky_world s0 = (Ok tt, s')
    /\ completed_requests s' = 2
    /\ results s' = [ab_dict]
    /\ completions (out s') = 1.
Proof.
  eexists. eexists.
  split; [vm_compute; reflexivity|].
  split; [vm_compute; reflexivity|].
  repeat split.
Qed.

(** C2.  The code at the failing input: of [A.JPG], [b.png], [c.txt] and
    [d], [collect_files] keeps [b.png] alone, since [endswith] compares the
    case as written; [scan_files], which lowers the suffix first, finds the
    two images. *)
Theorem collect_files_is_case_sensitive :
  exists s,
    __init__ mixed_case_world "d" "k" = (Ok tt, s)
    /\ files s = ["b.png"]
    /\ num_requests s = 1
    /\ scan_files mixed_case_world "d" = Ok ["d/A.JPG"; "d/b.png"].
Proof.
  eexists. split; [vm_compute; reflexivity|]. repeat split.
Qed.

(** ** The completion callback of the window, raising *)

(** Two readable images whose records differ in their keys, with
    [MainWindow.on_complete] as the callback: [write_csv] refuses the second
    record, so the callback raises inside the [try] of [process_image]; the
    exception is caught there, the second image is printed as processed and
    then as an error, and is counted twice. *)
Lemma on_complete_raising_in_the_try :
  fst (MainWindow.on_complete clean_desktop two_files_window
         [ab_dict; abcd_dict] {| prompt_tokens := 4; completion_tokens := 6 |})
  = Raise (OtherError "ValueError")
  /\ exists s',
       _process_files uneven_world uneven_start = (Ok tt, s')
       /\ num_requests s' = 2
       /\ completed_requests s' = 3
       /\ results s' = [ab_dict; abcd_dict]
       /\ tokens s' = {| prompt_tokens := 4; completion_tokens := 6 |}
       /\ out s' =
          [Progress (Lit "Processing a.jpg...");
           Progress (StrOf ab_dict);
           Print (Lit "Processed image d/a.jpg");
           Progress (Lit "Processing b.jpg...");
           Progress (StrOf abcd_dict);
           Print (Lit "Processed image d/b.jpg");
           Completion [ab_dict; abcd_dict]
             {| prompt_tokens := 4; completion_tokens := 6 |};
           Print (WithExn "Error processing image d/b.jpg" (OtherError "ValueError"));
           Print (Lit "Error processing image d/b.jpg")].
Proof.
  split; [reflexivity|].
  eexists. split; [vm_compute; reflexivity|]. repeat split.
Qed.

(** Two readable images, the request for the second of which fails, with
    the callback of a window that cannot open its output file: the callback
    raises in the [except] branch of [process_image], and the exception
    leaves [_process_files]. *)
Lemma on_complete_raising_in_the_except_branch :
  exists s',
    _process_files locked_world locked_start = (Raise OSError, s')
    /\ num_requests s' = 2
    /\ completed_requests s' = 2
    /\ results s' = [ab_dict]
    /\ out s' =
       [Progress (Lit "Processing a.jpg...");
        Progress (StrOf ab_dict);
        Print (Lit "Processed image d/a.jpg");
        Progress (Lit "Processing b.jpg...");
        Print (WithExn "Error processing image d/b.jpg" (OtherError "ConnectionError"));
        Print (Lit "Error processing image d/b.jpg");
        Completion [ab_dict] {| prompt_tokens := 1; completion_tokens := 2 |}].
Proof.
  eexists. split; [vm_compute; reflexivity|]. repeat split.
Qed.

(** ** The theorems at concrete inputs *)

Lemma flaky_files_readable :
  forall f, In f ["a.jpg"; "b.jpg"] -> readable flaky_world "d" f.
Proof.
  intros f [<-|[<-|[]]]; eexists; reflexivity.
Defined.

Lemma completion_fires_once_at_the_last_file_witness :
  exists r s' before after,
    _process_files locked_world locked_start = (r, s')
    /\ out s' =
       (out locked_start ++ before
        ++ Completion (results s') (tokens s') :: after)%list
    /\ completions before = 0
    /\ completions after = 0
    /\ completions (out s') = completions (out locked_start) + 1
    /\ List.length (filter is_notice before) = 2
    /\ (forall k, k < 2 ->
          exists sk,
            for_each (firstn k ["a.jpg"; "b.jpg"]) (process_file locked_world)
              locked_start
            = (Ok tt, sk)
            /\ completed_requests sk = k
            /\ completions (out sk) = completions (out locked_start))
    /\ (callback_outcome locked_world (results s') (tokens s') = Ok tt ->
        r = Ok tt /\ after = [] /\ completed_requests s' = 2).
Proof.
  apply (completion_fires_once_at_the_last_file locked_world locked_start).
  - vm_compute. lia.
  - reflexivity.
  - reflexivity.
  - intros f [<-|[<-|[]]]; eexists; reflexivity.
Defined.

Lemma tally_sums_every_reported_usage_witness :
  exists s',
    _process_files flaky_world flaky_start = (Ok tt, s')
    /\ tokens s' = {| prompt_tokens := 5; completion_tokens := 7 |}.
Proof.
  destruct (tally_sums_every_reported_usage flaky_world flaky_start)
    as (r & s' & E & T & Q).
  - exact flaky_files_readable.
  - intros f body [<-|[<-|[]]] H; vm_compute in H; [discriminate|].
    inversion H; subst body. vm_compute. discriminate.
  - right. vm_compute. lia.
  - exists s'. rewrite <- (Q (fun _ _ => eq_refl)). split; [exact E|exact T].
Defined.

Lemma tally_never_decreases_witness :
  (0 <= prompt_tokens
          (tokens (snd (for_each ["a.jpg"; "b.jpg"] (process_file flaky_world)
                          flaky_start))))%Z
  /\ (0 <= completion_tokens
             (tokens (snd (for_each ["a.jpg"; "b.jpg"] (process_file flaky_world)
                             flaky_start))))%Z
  /\ forall dir key, tokens (snd (__init__ flaky_world dir key)) = zero.
Proof.
  apply (tally_never_decreases flaky_world ["a.jpg"; "b.jpg"] flaky_start).
  intros f body [<-|[<-|[]]] H; vm_compute in H; [discriminate|].
  inversion H; subst body. reflexivity.
Defined.

Lemma parser_yields_the_fenced_object_witness :
  parse_openai_json_result flaky_world (envelope (fenced ab_text) 5 7) flaky_start
  = (Ok ab_dict, flaky_start).
Proof.
  apply (parser_yields_the_fenced_object
           flaky_world (envelope (fenced ab_text) 5 7) flaky_start).
  - apply first_choice_message_content. reflexivity.
  - reflexivity.
Defined.

Lemma undecodable_text_appends_the_empty_record_witness :
  exists s',
    process_result oops_world "d/a.jpg" (envelope (fenced "{oops") 5 7) oops_start
    = (Ok tt, s')
    /\ results s' = [PDict []]
    /\ out s' = [Print (WithExn "Error parsing JSON" JSONDecodeError);
                 Progress (StrOf (PDict []))].
Proof.
  apply (undecodable_text_appends_the_empty_record
           oops_world "d/a.jpg" (envelope (fenced "{oops") 5 7)
           (fenced "{oops") "{oops" 5 7 oops_start).
  - reflexivity.
  - reflexivity.
  - apply first_choice_message_content. reflexivity.
  - reflexivity.
  - reflexivity.
Defined.


(** * Properties beyond the specification *)

(** ** Names and suffixes *)

Lemma append_cons (c : ascii) (a b : string) :
  (String c a ++ b)%string = String c (a ++ b).
Proof. reflexivity. Qed.

Lemma append_empty (b : string) : (EmptyString ++ b)%string = b.
Proof. reflexivity. Qed.

Lemma str_length_app (a b : string) :
  String.length (a ++ b) = String.length a + String.length b.
Proof.
  induction a as [|c a IH]; [reflexivity|].
  rewrite append_cons. cbn [String.length]. now rewrite IH.
Qed.

Lemma drop_app (p s : string) : Str.drop (String.length p) (p ++ s) = s.
Proof.
  induction p as [|c p IH]; [now destruct s|].
  rewrite append_cons. cbn [String.length Str.drop]. exact IH.
Qed.

Lemma drop_is_a_tail (n : nat) (s : string) :
  exists p, s = (p ++ Str.drop n s)%string.
Proof.
  revert s; induction n as [|n IH]; intros s.
  - exists EmptyString. reflexivity.
  - destruct s as [|c s].
    + exists EmptyString. reflexivity.
    + destruct (IH s) as [p Hp]. exists (String c p).
      rewrite append_cons. cbn [Str.drop]. now rewrite <- Hp.
Qed.

(** [endswith] holds of the strings that are some text followed by the
    suffix. *)
Lemma endswith_iff (s suf : string) :
  Str.endswith s suf = true <-> exists p, s = (p ++ suf)%string.
Proof.
  unfold Str.endswith. split.
  - intros H. apply andb_prop in H as [_ H]. apply String.eqb_eq in H.
    destruct (drop_is_a_tail (String.length s - String.length suf) s) as [p Hp].
    exists p. now rewrite H in Hp.
  - intros [p ->]. rewrite str_length_app. apply andb_true_intro. split.
    + apply Nat.leb_le. lia.
    + replace (String.length p + String.length suf - String.length suf)
        with (String.length p) by lia.
      rewrite drop_app. apply String.eqb_refl.
Qed.

Lemma is_image_name_iff (f : string) :
  is_image_name f = true <->
  exists stem,
    f = (stem ++ ".jpg")%string \/ f = (stem ++ ".jpeg")%string
    \/ f = (stem ++ ".png")%string.
Proof.
  unfold is_image_name. rewrite !orb_true_iff, !endswith_iff. split.
  - intros [[[p H]|[p H]]|[p H]]; exists p; auto.
  - intros [p [H|[H|H]]]; [left; left|left; right|right]; now exists p.
Qed.

(** X1.  When the directory can be listed, [__init__] returns with the
    entries whose name is some text followed by [.jpg], [.jpeg] or [.png],
    written so, kept in the order of the listing, with their number in
    [num_requests]; nothing is counted, recorded, tallied or reported yet. *)
Theorem collect_files_keeps_the_names_with_an_extension
    (W : world) (dir key : string) (entries : list string) :
  listdir W dir = Ok entries ->
  exists s,
    __init__ W dir key = (Ok tt, s)
    /\ files s = filter is_image_name entries
    /\ num_requests s = List.length (files s)
    /\ (forall f,
           In f (files s) <->
           In f entries
           /\ exists stem,
                f = (stem ++ ".jpg")%string \/ f = (stem ++ ".jpeg")%string
                \/ f = (stem ++ ".png")%string)
    /\ completed_requests s = 0 /\ results s = [] /\ tokens s = zero
    /\ out s = [].
Proof.
  intros H. rewrite (init_collects W dir key entries H).
  eexists. split; [reflexivity|].
  cbn [set_num_requests set_files blank files num_requests completed_requests
       results tokens out].
  split; [reflexivity|]. split; [reflexivity|].
  split; [|repeat split].
  intros f. rewrite filter_In, is_image_name_iff. reflexivity.
Qed.

(** ** [scan_files] *)

Lemma scan_loop (dir : string) (entries found : list string) :
  fold_left
    (fun (found : list string) (file : string) =>
       let suf := Str.lower (suffix file) in
       if String.eqb suf ".jpg" || String.eqb suf ".jpeg" || String.eqb suf ".png"
       then (found ++ [path_join dir file])%list
       else found)
    entries found
  = (found ++ map (path_join dir) (filter has_image_suffix entries))%list.
Proof.
  revert found; induction entries as [|f entries IH]; intros found.
  - cbn [fold_left filter map]. now rewrite app_nil_r.
  - cbn [fold_left filter]. rewrite IH. unfold has_image_suffix at 2.
    cbv zeta.
    destruct (String.eqb _ ".jpg" || String.eqb _ ".jpeg" || String.eqb _ ".png").
    + cbn [map]. now rewrite <- app_assoc.
    + reflexivity.
Qed.

Lemma lower_char_idempotent (c : ascii) :
  Str.lower_char (Str.lower_char c) = Str.lower_char c.
Proof.
  destruct c as [[] [] [] [] [] [] [] []]; reflexivity.
Qed.

Lemma lower_char_dot (c : ascii) :
  Ascii.eqb (Str.lower_char c) "."%char = Ascii.eqb c "."%char.
Proof.
  destruct c as [[] [] [] [] [] [] [] []]; reflexivity.
Qed.

Lemma lower_idempotent (s : string) : Str.lower (Str.lower s) = Str.lower s.
Proof.
  induction s as [|c s IH]; [reflexivity|].
  cbn [Str.lower]. now rewrite lower_char_idempotent, IH.
Qed.

Lemma lower_length (s : string) : String.length (Str.lower s) = String.length s.
Proof.
  induction s as [|c s IH]; [reflexivity|]. cbn [Str.lower String.length].
  now rewrite IH.
Qed.

Lemma lower_drop (n : nat) (s : string) :
  Str.drop n (Str.lower s) = Str.lower (Str.drop n s).
Proof.
  revert s; induction n as [|n IH]; intros s; [reflexivity|].
  destruct s as [|c s]; [reflexivity|]. cbn [Str.lower Str.drop]. apply IH.
Qed.

Lemma lower_rfind_dot (s : string) :
  Str.rfind_dot (Str.lower s) = Str.rfind_dot s.
Proof.
  induction s as [|c s IH]; [reflexivity|].
  cbn [Str.lower Str.rfind_dot]. now rewrite IH, lower_char_dot.
Qed.

Lemma lower_suffix (f : string) : suffix (Str.lower f) = Str.lower (suffix f).
Proof.
  unfold suffix. rewrite lower_rfind_dot, lower_length.
  destruct (Str.rfind_dot f) as [i|]; [|reflexivity].
  destruct ((0 <? i) && (i <? String.length f - 1))%nat; [|reflexivity].
  apply lower_drop.
Qed.

Lemma has_image_suffix_lower (f : string) :
  has_image_suffix (Str.lower f) = has_image_suffix f.
Proof.
  unfold has_image_suffix. cbv zeta. now rewrite lower_suffix, lower_idempotent.
Qed.

Lemma scan_files_filter (W : world) (dir : string) (entries : list string) :
  listdir W dir = Ok entries ->
  scan_files W dir = Ok (map (path_join dir) (filter has_image_suffix entries)).
Proof.
  intros H. unfold scan_files. rewrite H. now rewrite scan_loop.
Qed.

(** X2.  [scan_files] finds, in the order of the listing, the path of
    every entry whose suffix, lowered, is [.jpg], [.jpeg] or [.png]; and
    of two listings that differ in the case of their letters only, it keeps
    the entries at the same places. *)
Theorem scan_files_ignores_the_case
    (W W' : world) (dir : string) (entries entries' : list string) :
  listdir W dir = Ok entries ->
  listdir W' dir = Ok entries' ->
  map Str.lower entries = map Str.lower entries' ->
  scan_files W dir = Ok (map (path_join dir) (filter has_image_suffix entries))
  /\ scan_files W' dir
     = Ok (map (path_join dir) (filter has_image_suffix entries'))
  /\ map has_image_suffix entries = map has_image_suffix entries'.
Proof.
  intros H H' Hl.
  split; [now apply scan_files_filter|]. split; [now apply scan_files_filter|].
  clear H H'. revert entries' Hl.
  induction entries as [|f entries IH]; intros [|g entries'] Hl;
    try discriminate; [reflexivity|].
  cbn [map] in *. inversion Hl as [[Hf Ht]].
  rewrite <- (has_image_suffix_lower f), Hf, has_image_suffix_lower.
  f_equal. now apply IH.
Qed.

Lemma rfind_dot_app (p e : string) (i : nat) :
  Str.rfind_dot e = Some i ->
  Str.rfind_dot (p ++ e) = Some (String.length p + i).
Proof.
  intros H. induction p as [|c p IH]; [exact H|].
  rewrite append_cons. cbn [Str.rfind_dot String.length]. now rewrite IH.
Qed.

(** The suffix of a stem followed by an extension is the extension. *)
Lemma suffix_of_stem (p e : string) :
  p <> EmptyString ->
  Str.rfind_dot e = Some 0 ->
  2 <= String.length e ->
  suffix (p ++ e) = e.
Proof.
  intros Hp He Hl. unfold suffix. rewrite (rfind_dot_app p e 0 He).
  rewrite str_length_app, Nat.add_0_r.
  assert (Hpos : 0 < String.length p) by (destruct p; [congruence|cbn; lia]).
  replace ((0 <? String.length p) && (String.length p <? String.length p + String.length e - 1))%nat
    with true.
  - apply drop_app.
  - symmetry. apply andb_true_intro. split; apply Nat.ltb_lt; lia.
Qed.

Lemma collected_name_has_image_suffix (f : string) :
  is_image_name f = true ->
  f <> ".jpg" -> f <> ".jpeg" -> f <> ".png" ->
  has_image_suffix f = true.
Proof.
  intros H N1 N2 N3. apply is_image_name_iff in H as [p [H|[H|H]]]; subst f;
    (assert (Hp : p <> EmptyString) by (intros ->; now rewrite append_empty in *));
    unfold has_image_suffix; cbv zeta;
    rewrite (suffix_of_stem p _ Hp) by (try reflexivity; cbn; lia);
    reflexivity.
Qed.

(** X3.  In a directory without an entry named [.jpg], [.jpeg] or [.png],
    every file [collect_files] keeps for the batch is one [scan_files]
    finds. *)
Theorem collected_files_are_scanned
    (W : world) (dir key : string) (entries : list string) :
  listdir W dir = Ok entries ->
  ~ In ".jpg" entries -> ~ In ".jpeg" entries -> ~ In ".png" entries ->
  exists s found,
    __init__ W dir key = (Ok tt, s)
    /\ scan_files W dir = Ok found
    /\ forall f, In f (files s) -> In (path_join dir f) found.
Proof.
  intros H N1 N2 N3.
  rewrite (init_collects W dir key entries H), (scan_files_filter W dir entries H).
  eexists. eexists. split; [reflexivity|]. split; [reflexivity|].
  cbn [set_num_requests set_files files]. intros f Hf.
  apply filter_In in Hf as [Hin Hf]. apply in_map. apply filter_In.
  split; [exact Hin|]. apply collected_name_has_image_suffix; [exact Hf| | |];
    intros ->; contradiction.
Qed.

(** ** The tracker, once more *)

(** X4.  Whatever the two counters are, however many notifications follow
    and whatever the completion callback does, [request_complete] invokes
    the callback once if the count goes through the number of requests, and
    never otherwise: never twice, never when the count has passed the
    number, and never when the number of requests is zero.  With a callback
    that returns, the notifications all return. *)
Theorem callback_fires_at_most_once (W : world) (msgs : list message) (s : manager) :
  completed_requests (notify_all W msgs s)
  = completed_requests s + List.length msgs
  /\ num_requests (notify_all W msgs s) = num_requests s
  /\ completions (out (notify_all W msgs s)) =
     completions (out s)
     + (if ((completed_requests s <? num_requests s)
            && (num_requests s <=? completed_requests s + List.length msgs))%nat
        then 1 else 0)
  /\ (callback_returns W ->
      for_each msgs (request_complete W) s = (Ok tt, notify_all W msgs s)).
Proof.
  destruct (notify_all_counts W msgs s) as (C & N & O).
  split; [exact C|]. split; [exact N|]. split; [exact O|].
  apply notify_all_returning.
Qed.

(** ** A file, and a run of files, in full *)

Section Files.

Variable W : world.

(** X5.  In a batch whose images can all be read, run from a manager just
    built (or from any state, if the completion callback returns), every
    file is processed and the records are, file after file in the order of
    [files], the one record of each response that reports its two counts
    and that the parser accepts, and nothing for the other files.  Every
    file is counted once, and the last file once more when the completion
    callback raises after it was processed; with a callback that returns,
    [_process_files] returns and the count is the number of files. *)
Theorem results_follow_the_files (s : manager) :
  (forall f, In f (files s) -> readable W (directory s) f) ->
  callback_returns W
  \/ completed_requests s + List.length (files s) <= num_requests s ->
  exists r s',
    _process_files W s = (r, s')
    /\ results s' =
       (results s
        ++ flat_map (recorded_for W (directory s) (api_key s)) (files s))%list
    /\ completed_requests s + List.length (files s)
       <= completed_requests s'
       <= completed_requests s + List.length (files s) + 1
    /\ (callback_returns W ->
        r = Ok tt
        /\ completed_requests s' = completed_requests s + List.length (files s)).
Proof.
  intros Hr Hq. unfold _process_files, bind, get. cbn [fst snd].
  destruct (run_spec W (files s) s Hr Hq)
    as (r & s' & added & E & _ & R & _ & _ & C & N & _ & Q).
  exists r, s'. split; [exact E|]. split; [exact R|].
  split; [lia|].
  intros H. destruct Q as [-> Q]; [now left|]. split; [reflexivity|lia].
Qed.

(** X6.  In such a run the progress callback is called once before each
    file and once more for each record kept, and not for a file that
    failed.  Each file is notified by one printed message, and the last
    file by a second one when the completion callback raises after it was
    processed; the count of the manager grows by the number of these
    messages. *)
Theorem progress_is_reported_per_file_and_per_record (fs : list string) (s : manager) :
  (forall f, In f fs -> readable W (directory s) f) ->
  callback_returns W
  \/ completed_requests s + List.length fs <= num_requests s ->
  exists r s' added,
    for_each fs (process_file W) s = (r, s')
    /\ out s' = (out s ++ added)%list
    /\ List.length (filter is_progress added)
       = List.length fs + (List.length (results s') - List.length (results s))
    /\ List.length fs <= List.length (filter is_notice added) <= List.length fs + 1
    /\ completed_requests s' =
       completed_requests s + List.length (filter is_notice added)
    /\ (callback_returns W ->
        r = Ok tt /\ List.length (filter is_notice added) = List.length fs).
Proof.
  intros Hr Hq.
  destruct (run_spec W fs s Hr Hq)
    as (r & s' & added & E & _ & R & O & P & C & N & _ & Q).
  exists r, s', added. split; [exact E|]. split; [exact O|].
  split; [rewrite P, R, length_app; lia|].
  split; [exact N|]. split; [exact C|].
  intros H. apply Q. now left.
Qed.

(** X7.  What a readable file leaves in the trace after the message
    [Processing <file>...] to the progress callback is one of two things:
    either the record given to the progress callback (after the parser's
    message when the text was not JSON) and the print of [Processed image
    <path>], with the record appended; or the two prints of the error, with
    no record.  If this notification makes the count equal to the number of
    requests, the completion callback is invoked next.  The file is counted
    once and [process_file] returns, but for a callback that raises: raised
    after the success notification, the exception is caught, the file is
    printed as an error and counted a second time, its record kept; raised
    after the failure notification, it leaves [process_file]. *)
Theorem a_readable_file_is_processed_or_reported (f : string) (s : manager) :
  readable W (directory s) f ->
  exists r s' middle tail,
    process_file W f s = (r, s')
    /\ results s' = (results s ++ recorded_for W (directory s) (api_key s) f)%list
    /\ out s' =
       (out s ++ Progress (Lit ("Processing " ++ f ++ "...")) :: middle ++ tail)%list
    /\ ((exists record pre,
            recorded_for W (directory s) (api_key s) f = [record]
            /\ (pre = [] \/
                pre = [Print (WithExn "Error parsing JSON" JSONDecodeError)])
            /\ middle =
               (pre ++ [Progress (StrOf record);
                        Print (Lit ("Processed image "
                                      ++ path_join (directory s) f))])%list)
        \/ (exists e,
              recorded_for W (directory s) (api_key s) f = []
              /\ middle =
                 [Print (WithExn ("Error processing image "
                                    ++ path_join (directory s) f) e);
                  Print (Lit ("Error processing image "
                                ++ path_join (directory s) f))]))
    /\ (if Nat.eqb (completed_requests s + 1) (num_requests s)
        then
          match callback_outcome W (results s') (tokens s') with
          | Ok _ =>
              r = Ok tt
              /\ completed_requests s' = completed_requests s + 1
              /\ tail = [Completion (results s') (tokens s')]
          | Raise e =>
              match recorded_for W (directory s) (api_key s) f with
              | [] =>
                  r = Raise e
                  /\ completed_requests s' = completed_requests s + 1
                  /\ tail = [Completion (results s') (tokens s')]
              | _ :: _ =>
                  r = Ok tt
                  /\ completed_requests s' = completed_requests s + 2
                  /\ tail =
                     [Completion (results s') (tokens s');
                      Print (WithExn ("Error processing image "
                                        ++ path_join (directory s) f) e);
                      Print (Lit ("Error processing image "
                                    ++ path_join (directory s) f))]
              end
          end
        else
          r = Ok tt
          /\ completed_requests s' = completed_requests s + 1
          /\ tail = []).
Proof.
  intros Hr.
  destruct (process_file_spec W f s Hr)
    as (r & s' & middle & tail & E & _ & R & O & Shape & End).
  exists r, s', middle, tail. auto.
Qed.

(** The count over a run, with the one notification that a raising callback
    can cause to be repeated. *)
Lemma run_counts (fs : list string) (s : manager) :
  completed_requests s <= completed_requests (snd (for_each fs (process_file W) s))
  /\ completed_requests (snd (for_each fs (process_file W) s))
     + (if (completed_requests (snd (for_each fs (process_file W) s))
            <? num_requests s)%nat then 1 else 0)
     <= completed_requests s + List.length fs
        + (if (completed_requests s <? num_requests s)%nat then 1 else 0)
  /\ (callback_returns W ->
      completed_requests (snd (for_each fs (process_file W) s))
      <= completed_requests s + List.length fs).
Proof.
  revert s; induction fs as [|f fs IH]; intros s.
  - cbn [for_each]. unfold ret. cbn [snd List.length]. lia.
  - destruct (process_file_any W f s) as ((_ & _ & N & _) & C & Cr & _).
    assert (Hstep : completed_requests (snd (process_file W f s))
                    + (if (completed_requests (snd (process_file W f s))
                           <? num_requests s)%nat then 1 else 0)
                    <= completed_requests s + 1
                       + (if (completed_requests s <? num_requests s)%nat
                          then 1 else 0)).
    { destruct (Nat.eqb_spec (completed_requests s + 1) (num_requests s));
        destruct (Nat.ltb_spec (completed_requests (snd (process_file W f s)))
                    (num_requests s));
        destruct (Nat.ltb_spec (completed_requests s) (num_requests s)); lia. }
    cbn [for_each]. unfold bind.
    destruct (process_file W f s) as [[[]|e] s1]; cbn [snd List.length] in *.
    + destruct (IH s1) as (L & U & Ur). rewrite N in U.
      split; [lia|]. split; [lia|].
      intros H. specialize (Cr H). specialize (Ur H). lia.
    + split; [lia|]. split; [lia|].
      intros H. specialize (Cr H). lia.
Qed.

(** X8.  Whatever the files, the responses, the failures and the
    completion callback, a run of files leaves the directory, the key, the
    list of files and the number of requests as they were, and only appends
    to the records: at most one per file, none ever removed or changed, and
    each either a value that is true in Python or the empty record, never
    [None].  It counts at most one completion per file, and one more in the
    whole run when the completion callback raises; none more when the
    callback returns. *)
Theorem a_run_only_counts_and_appends (fs : list string) (s : manager) :
  same_batch s (snd (for_each fs (process_file W) s))
  /\ completed_requests s
     <= completed_requests (snd (for_each fs (process_file W) s))
     <= completed_requests s + List.length fs + 1
  /\ (callback_returns W ->
      completed_requests (snd (for_each fs (process_file W) s))
      <= completed_requests s + List.length fs)
  /\ exists added,
       results (snd (for_each fs (process_file W) s)) = (results s ++ added)%list
       /\ List.length added <= List.length fs
       /\ Forall (fun r => truthy r = true \/ r = PDict []) added.
Proof.
  destruct (run_counts fs s) as (L & U & Ur).
  split; [|split; [|split; [exact Ur|]]].
  - revert s L U Ur; induction fs as [|f fs IH]; intros s _ _ _.
    + cbn [for_each]. unfold ret. cbn [snd]. repeat split.
    + destruct (process_file_any W f s) as (B & _).
      cbn [for_each]. unfold bind.
      destruct (process_file W f s) as [[[]|e] s1]; cbn [snd] in *.
      * apply same_batch_trans with s1; [exact B|].
        destruct (run_counts fs s1) as (L1 & U1 & Ur1). now apply IH.
      * exact B.
  - split; [exact L|].
    destruct (Nat.ltb_spec
                (completed_requests (snd (for_each fs (process_file W) s)))
                (num_requests s));
      destruct (Nat.ltb_spec (completed_requests s) (num_requests s)); lia.
  - clear L U Ur. revert s; induction fs as [|f fs IH]; intros s.
    + cbn [for_each]. unfold ret. cbn [snd List.length].
      exists []. rewrite app_nil_r. split; [reflexivity|].
      split; [cbn; lia|constructor].
    + destruct (process_file_any W f s) as (B & _ & _ & added & R & L & Fa).
      cbn [for_each]. unfold bind.
      destruct (process_file W f s) as [[[]|e] s1]; cbn [snd] in *.
      * destruct (IH s1) as (added' & R' & L' & Fa').
        exists (added ++ added')%list.
        split; [now rewrite R', R, <- app_assoc|].
        split; [rewrite length_app; cbn [List.length]; lia|].
        now apply Forall_app.
      * exists added. split; [exact R|]. split; [cbn [List.length]; lia|exact Fa].
Qed.

(** X9.  The batch stops at the first image that cannot be read: the files
    before it are processed and counted, the progress callback is told of
    the unreadable file, and then [_process_files] raises the exception of
    the read; the file is not counted, no later file is touched, and the
    completion callback is not invoked. *)
Theorem the_batch_stops_at_the_first_unreadable_image
    (s : manager) (before after : list string) (f : string) (e : exn) :
  files s = (before ++ f :: after)%list ->
  num_requests s = List.length (files s) ->
  completed_requests s = 0 ->
  (forall g, In g before -> readable W (directory s) g) ->
  read_file W (path_join (directory s) f) = Raise e ->
  exists s1,
    for_each before (process_file W) s = (Ok tt, s1)
    /\ _process_files W s
       = (Raise e, emit (Progress (Lit ("Processing " ++ f ++ "..."))) s1)
    /\ completed_requests s1 = List.length before
    /\ completions (out s1) = completions (out s).
Proof.
  intros Hf Hn Hc Hr He.
  destruct (files_before_the_last W before s Hr) as (s1 & E & B & C & O).
  { rewrite Hc, Hn, Hf, length_app. cbn [List.length]. lia. }
  exists s1. split; [exact E|].
  split; [|split; [rewrite C, Hc; reflexivity|exact O]].
  unfold _process_files, bind, get. cbn [fst snd]. rewrite Hf.
  rewrite for_each_app, E.
  apply unreadable_image_ends_the_loop.
  destruct B as (D & _). now rewrite D.
Qed.

End Files.
(** ** The parser, once more *)

Lemma dropwhile_head (p : ascii -> bool) (s : string) :
  match Str.dropwhile p s with
  | EmptyString => True
  | String c _ => p c = false
  end.
Proof.
  induction s as [|c s IH]; [exact I|].
  cbn [Str.dropwhile]. destruct (p c) eqn:E; [exact IH|exact E].
Qed.

Lemma lstrip_head (chars s : string) :
  starts_with_one_of chars (Str.lstrip chars s) = false.
Proof.
  unfold Str.lstrip, starts_with_one_of.
  pose proof (dropwhile_head (fun c => Str.mem c chars) s) as H.
  destruct (Str.dropwhile _ s); [reflexivity|exact H].
Qed.

(** X10.  The text the parser hands to [json.loads] never starts with one
    of the letters [j], [s], [o], [n] or with a newline, since [lstrip]
    takes its argument for a set of characters: two worlds whose decoders
    agree on the other texts give the same parse of every envelope. *)
Theorem parser_strips_the_letters_of_json
    (W W' : world) (result : pyval) (s : manager) :
  (forall txt,
      starts_with_one_of ("json" ++ nl) txt = false ->
      json_loads W txt = json_loads W' txt) ->
  parse_openai_json_result W result s = parse_openai_json_result W' result s.
Proof.
  intros H. rewrite !parse_unfold.
  destruct (message_content result) as [content|e]; [|reflexivity].
  destruct (py_split content fence 2) as [parts|e]; [|reflexivity].
  destruct (list_item parts 1) as [part|e]; [|reflexivity].
  now rewrite (H _ (lstrip_head ("json" ++ nl) (Str.strip part))).
Qed.

Lemma append_nil_r (s : string) : (s ++ EmptyString)%string = s.
Proof.
  induction s as [|c s IH]; [reflexivity|]. rewrite append_cons. now rewrite IH.
Qed.

Lemma no_backquote_cons (c : ascii) (a : string) :
  no_backquote (String c a) = true ->
  Ascii.eqb backquote c = false /\ no_backquote a = true.
Proof.
  unfold no_backquote, Str.mem. cbn [list_ascii_of_string existsb].
  intros H. apply negb_true_iff in H. apply orb_false_iff in H as [H1 H2].
  split; [exact H1|]. now apply negb_true_iff.
Qed.

Lemma startswith_fence_other (c : ascii) (r : string) :
  Ascii.eqb backquote c = false -> Str.startswith (String c r) fence = false.
Proof. intros H. unfold fence. cbn [Str.startswith]. unfold backquote in H. now rewrite H. Qed.

(** The first fence after a text without back quotes is where the text
    ends. *)
Lemma partition_after_plain_text (a r : string) :
  no_backquote a = true ->
  Str.partition fence (a ++ fence ++ r) = Some (a, r).
Proof.
  induction a as [|c a IH]; intros H.
  - rewrite append_empty.
    destruct r; reflexivity.
  - apply no_backquote_cons in H as [Hc Ha].
    rewrite append_cons. cbn [Str.partition].
    rewrite (startswith_fence_other c _ Hc), (IH Ha). reflexivity.
Qed.

Lemma partition_plain_text (b : string) :
  no_backquote b = true -> Str.partition fence b = None.
Proof.
  induction b as [|c b IH]; intros H; [reflexivity|].
  apply no_backquote_cons in H as [Hc Hb].
  cbn [Str.partition]. rewrite (startswith_fence_other c _ Hc), (IH Hb).
  reflexivity.
Qed.

Lemma embedded_json_between_fences (a b rest : string) :
  no_backquote a = true ->
  no_backquote b = true ->
  (rest = EmptyString \/ exists c, rest = (fence ++ c)%string) ->
  embedded_json (a ++ fence ++ b ++ rest)
  = Some (Str.lstrip ("json" ++ nl) (Str.strip b)).
Proof.
  intros Ha Hb Hr. unfold embedded_json. cbn [Str.split].
  rewrite (partition_after_plain_text a _ Ha).
  destruct Hr as [-> | [c ->]].
  - rewrite append_nil_r, (partition_plain_text b Hb). reflexivity.
  - rewrite (partition_after_plain_text b c Hb). reflexivity.
Qed.

(** X11.  Whatever text without back quotes stands before the first fence
    is ignored, and so is everything from the second fence on; a code block
    that is never closed is read to the end of the content.  The parse is
    what comes of decoding the text between the fences, stripped. *)
Theorem text_around_the_code_block_is_ignored
    (W : world) (result : pyval) (a b rest : string) (s : manager) :
  no_backquote a = true ->
  no_backquote b = true ->
  (rest = EmptyString \/ exists c, rest = (fence ++ c)%string) ->
  first_choice_content result (a ++ fence ++ b ++ rest) ->
  parse_openai_json_result W result s
  = decode_outcome W (Str.lstrip ("json" ++ nl) (Str.strip b)) s.
Proof.
  intros Ha Hb Hr Hc. apply first_choice_message_content in Hc.
  rewrite (parse_embedded W result _ _ s Hc
             (embedded_json_between_fences a b rest Ha Hb Hr)).
  reflexivity.
Qed.

(** X12.  For a response that reports its two counts and whose embedded
    text [json.loads] decodes, [process_result] returns: both counts are
    added to the tally, the decoded value is appended to the records (the
    empty record in its place when the value is false in Python: [null],
    [false], [0], an empty string, list or object), the record is given to
    the progress callback, and the counters are left alone. *)
Theorem decoded_record_is_appended_and_tallied
    (W : world) (path : string) (result : pyval) (content txt : string)
    (v : pyval) (p c : Z) (s : manager) :
  reported result "prompt_tokens" = Some p ->
  reported result "completion_tokens" = Some c ->
  first_choice_content result content ->
  embedded_json content = Some txt ->
  json_loads W txt = Ok v ->
  exists s',
    process_result W path result s = (Ok tt, s')
    /\ results s' = (results s ++ [record_of v])%list
    /\ tokens s' = {| prompt_tokens := prompt_tokens (tokens s) + p;
                      completion_tokens := completion_tokens (tokens s) + c |}
    /\ out s' = (out s ++ [Progress (StrOf (record_of v))])%list
    /\ completed_requests s' = completed_requests s.
Proof.
  intros Hp Hq Hc He Hj. apply first_choice_message_content in Hc.
  pose proof (process_result_tokens W path result s) as T.
  rewrite Hp, Hq in T.
  pose proof (process_result_spec W path result s) as S.
  assert (Rec : recorded W result = [record_of v]).
  { unfold recorded. rewrite Hp, Hq.
    rewrite (parse_embedded W result content txt _ Hc He), Hj. reflexivity. }
  rewrite Rec in S.
  assert (P : forall s0, parse_openai_json_result W result s0 = (Ok v, s0)).
  { intros s0. now rewrite (parse_embedded W result content txt _ Hc He), Hj. }
  destruct (process_result W path result s) as [[[]|e] s'] eqn:E; cbn [snd] in T.
  - destruct S as [(Cq & _) (R & record & pre & Hrec & O & Hpre)].
    inversion Hrec; subst record.
    exists s'. split; [reflexivity|]. split; [exact R|]. split; [exact T|].
    split; [|exact Cq].
    destruct Hpre as [-> | ->]; [exact O|].
    exfalso. revert E O.
    unfold process_result, bind, eval, get, modify, progress_callback.
    unfold reported, and_then in Hp, Hq.
    destruct (getitem result (KStr "usage")) as [u|]; [|discriminate].
    cbn [fst snd].
    destruct (getitem u (KStr "completion_tokens")) as [vc|]; [|discriminate].
    destruct (getitem u (KStr "prompt_tokens")) as [vp|]; [|discriminate].
    destruct vc; try discriminate; destruct vp; try discriminate;
      cbn [int_add fst snd set_tokens tokens prompt_tokens completion_tokens];
      rewrite P; intros E O; inversion E; subst s';
      cbn [emit set_results set_tokens results out] in O;
      apply app_inv_head in O; discriminate.
  - destruct S as [_ [_ [Hrec _]]]. discriminate.
Qed.

(** X13.  The two counts are added one after the other: for a response
    that reports its completion count and no prompt count,
    [process_result] raises with the completion count already in the tally;
    the prompt counter, the records and the trace are as before. *)
Theorem completion_count_stays_when_the_prompt_count_is_missing
    (W : world) (path : string) (result : pyval) (c : Z) (s : manager) :
  reported result "completion_tokens" = Some c ->
  reported result "prompt_tokens" = None ->
  exists e s',
    process_result W path result s = (Raise e, s')
    /\ tokens s' = {| prompt_tokens := prompt_tokens (tokens s);
                      completion_tokens := completion_tokens (tokens s) + c |}
    /\ results s' = results s
    /\ out s' = out s.
Proof.
  intros Hq Hp.
  pose proof (process_result_tokens W path result s) as T.
  rewrite Hp, Hq in T.
  pose proof (process_result_spec W path result s) as S.
  assert (Rec : recorded W result = []) by (unfold recorded; now rewrite Hp, Hq).
  rewrite Rec in S.
  destruct (process_result W path result s) as [[[]|e] s']; cbn [snd] in T.
  - destruct S as [_ [_ (record & pre & Hrec & _)]]. discriminate.
  - destruct S as [_ [R [_ O]]]. exists e, s'.
    rewrite app_nil_r in R. auto.
Qed.

(** ** The window: validation and the CSV file *)

Section Window.

Import MainWindow.

Variable D : desktop.

(** X14.  [validate] never raises; it returns true exactly when the key,
    the two directories and the file name are non-empty strings and at
    least one file was found, and then shows nothing; otherwise it returns
    false after exactly one dialog. *)
Theorem validate_accepts_complete_settings_only (w : window) :
  exists ok shown,
    validate w = (Ok ok, shown)
    /\ (ok = true <->
        given (MainWindow.api_key w) = true
        /\ given (MainWindow.directory w) = true
        /\ given (output_dir w) = true /\ given (output_file w) = true
        /\ MainWindow.files w <> [])
    /\ (ok = true -> shown = [])
    /\ (ok = false -> exists text, shown = [ShowInfo "Error" text]).
Proof.
  unfold validate, then_, perform, done.
  destruct (given (MainWindow.api_key w)), (given (MainWindow.directory w)),
    (given (output_dir w)), (given (output_file w)),
    (MainWindow.files w) as [|f fs];
    cbn [negb app];
    eexists; eexists; (split; [reflexivity|]);
    (split;
     [split;
      [intros H; try discriminate H; repeat split; discriminate
      |intros (H1 & H2 & H3 & H4 & H5); try discriminate; try congruence;
       reflexivity]|]);
    (split; [intros H; try discriminate H; reflexivity
            |intros H; try discriminate H; eauto]).
Qed.

(** *** Rows *)

Lemma existsb_negb (A : Type) (p : A -> bool) (l : list A) :
  existsb (fun x => negb (p x)) l = negb (forallb p l).
Proof.
  induction l as [|x l IH]; [reflexivity|].
  cbn [existsb forallb]. rewrite IH. now destruct (p x), (forallb p l).
Qed.

Lemma fits_dict_to_list (fn : list string) (r : pyval) :
  fits fn r = true -> _dict_to_list fn r = Ok (row_of fn r).
Proof.
  destruct r; try discriminate. cbn [fits]. intros H.
  unfold _dict_to_list, and_then, keys. rewrite existsb_negb, H. reflexivity.
Qed.

Lemma unfit_dict_to_list (fn : list string) (r : pyval) :
  fits fn r = false ->
  _dict_to_list fn r
  = Raise (match r with PDict _ => OtherError "ValueError" | _ => AttributeError end).
Proof.
  destruct r; try reflexivity. cbn [fits]. intros H.
  unfold _dict_to_list, and_then, keys. rewrite existsb_negb, H. reflexivity.
Qed.

Lemma fits_self (d : list (string * pyval)) : fits (map fst d) (PDict d) = true.
Proof.
  cbn [fits]. apply forallb_forall. intros k Hk. apply existsb_exists.
  exists k. split; [exact Hk|apply String.eqb_refl].
Qed.

Lemma forallb_false_split (A : Type) (p : A -> bool) (l : list A) :
  forallb p l = false ->
  exists good bad more,
    l = (good ++ bad :: more)%list /\ forallb p good = true /\ p bad = false.
Proof.
  induction l as [|x l IH]; [discriminate|]. cbn [forallb].
  destruct (p x) eqn:Px; cbn [andb]; intros H.
  - destruct (IH H) as (good & bad & more & -> & G & B).
    exists (x :: good), bad, more. cbn [forallb app]. now rewrite Px.
  - exists [], x, l. auto.
Qed.

Lemma rows_all_fit (fn : list string) (rs : list pyval) :
  forallb (fits fn) rs = true ->
  for_rows rs (write_row fn)
  = (Ok tt, map (fun r => RowWritten (row_of fn r)) rs).
Proof.
  induction rs as [|r rs IH]; [reflexivity|]. cbn [forallb].
  intros H. apply andb_prop in H as [Hr Hrs].
  cbn [for_rows map]. unfold write_row at 1.
  rewrite (fits_dict_to_list fn r Hr), (IH Hrs). reflexivity.
Qed.

Lemma rows_until_unfit (fn : list string) (good more : list pyval) (bad : pyval) :
  forallb (fits fn) good = true ->
  fits fn bad = false ->
  for_rows (good ++ bad :: more) (write_row fn)
  = (Raise (match bad with PDict _ => OtherError "ValueError" | _ => AttributeError end),
     map (fun r => RowWritten (row_of fn r)) good).
Proof.
  intros Hg Hb. induction good as [|r good IH].
  - cbn [app for_rows map]. unfold write_row.
    rewrite (unfit_dict_to_list fn bad Hb). reflexivity.
  - cbn [forallb] in Hg. apply andb_prop in Hg as [Hr Hg].
    cbn [app for_rows map]. unfold write_row at 1.
    rewrite (fits_dict_to_list fn r Hr), (IH Hg). reflexivity.
Qed.

(** The rows of any run of records have the width of the header. *)
Lemma rows_have_the_width (fn : list string) (rs : list pyval) :
  Forall (fun e => exists cells,
                     e = RowWritten cells /\ List.length cells = List.length fn)
         (snd (for_rows rs (write_row fn))).
Proof.
  induction rs as [|r rs IH]; [constructor|].
  cbn [for_rows]. unfold write_row at 1, _dict_to_list, and_then.
  destruct (keys r) as [ks|e]; [|constructor].
  destruct (existsb _ ks); [constructor|].
  unfold then_, value, perform.
  destruct (for_rows rs (write_row fn)) as [o t]. cbn [snd app] in *.
  constructor; [|exact IH].
  eexists. split; [reflexivity|]. apply length_map.
Qed.

(** [write_csv] once it may write and the file is open. *)
Lemma write_csv_allowed (w : window) (first : pyval) (rest : list pyval)
    (path : string) :
  output_path w = Ok path ->
  may_write D path = true ->
  open_for_writing D path = Ok tt ->
  write_csv D w (first :: rest) =
  match keys first with
  | Raise e => (Raise e, (asked D path ++ [Opened path; Closed path])%list)
  | Ok fn =>
      match for_rows (first :: rest) (write_row fn) with
      | (Ok _, t) =>
          (Ok tt,
           (asked D path ++ Opened path :: RowWritten (map PStr fn) :: t
            ++ [Closed path; Printed ("Results written to " ++ path)])%list)
      | (Raise e, t) =>
          (Raise e,
           (asked D path ++ Opened path :: RowWritten (map PStr fn) :: t
            ++ [Closed path])%list)
      end
  end.
Proof.
  intros Hp Hm Ho. unfold write_csv, may_write, asked, overwrite_question in *.
  rewrite Hp. unfold then_ at 1. unfold value at 1.
  destruct (path_exists D path); cbn [negb orb] in Hm.
  - rewrite Hm. unfold then_, perform, done, value, finally. cbn [negb].
    rewrite Ho. cbn [app].
    destruct (keys first) as [fn|e]; [|reflexivity].
    destruct (for_rows (first :: rest) _) as [[[]|e] t]; cbn [app];
      rewrite <- ?app_assoc; reflexivity.
  - unfold then_, perform, done, value, finally. cbn [negb].
    rewrite Ho. cbn [app].
    destruct (keys first) as [fn|e]; [|reflexivity].
    destruct (for_rows (first :: rest) _) as [[[]|e] t]; cbn [app];
      rewrite <- ?app_assoc; reflexivity.
Qed.

(** X15.  Once it may write and the file is open, [write_csv] returns
    exactly when the first record is a [dict] and every later record is a
    [dict] whose keys are all among the keys of the first; it raises
    otherwise. *)
Theorem write_csv_needs_the_fields_of_the_first_record
    (w : window) (first : pyval) (rest : list pyval) (path : string) :
  output_path w = Ok path ->
  may_write D path = true ->
  open_for_writing D path = Ok tt ->
  (fst (write_csv D w (first :: rest)) = Ok tt
   <-> exists d, first = PDict d /\ forallb (fits (map fst d)) rest = true).
Proof.
  intros Hp Hm Ho. rewrite (write_csv_allowed w first rest path Hp Hm Ho).
  split.
  - destruct first as [| | | | |d]; try discriminate.
    cbn [keys]. intros H. exists d. split; [reflexivity|].
    destruct (forallb (fits (map fst d)) rest) eqn:F; [reflexivity|].
    exfalso. apply forallb_false_split in F as (good & bad & more & -> & G & B).
    change (PDict d :: good ++ bad :: more)%list
      with ((PDict d :: good) ++ bad :: more)%list in H.
    rewrite (rows_until_unfit (map fst d) (PDict d :: good) more bad) in H.
    + discriminate.
    + cbn [forallb]. now rewrite fits_self, G.
    + exact B.
  - intros (d & -> & F). cbn [keys].
    rewrite (rows_all_fit (map fst d) (PDict d :: rest)).
    + reflexivity.
    + cbn [forallb]. now rewrite fits_self, F.
Qed.

(** X16.  When every record has its keys among those of the first, the
    file holds the header, which is the keys of the first record in their
    order, and then one row per record, in order, with the value of each
    field and the empty string where the record has none; the file is
    closed and the message printed. *)
Theorem write_csv_writes_one_row_per_record
    (w : window) (d : list (string * pyval)) (rest : list pyval) (path : string) :
  output_path w = Ok path ->
  may_write D path = true ->
  open_for_writing D path = Ok tt ->
  forallb (fits (map fst d)) rest = true ->
  write_csv D w (PDict d :: rest)
  = (Ok tt,
     (asked D path
      ++ Opened path
      :: RowWritten (map PStr (map fst d))
      :: map (fun r => RowWritten (row_of (map fst d) r)) (PDict d :: rest)
      ++ [Closed path; Printed ("Results written to " ++ path)])%list).
Proof.
  intros Hp Hm Ho F. rewrite (write_csv_allowed w _ rest path Hp Hm Ho).
  cbn [keys]. rewrite (rows_all_fit (map fst d) (PDict d :: rest)).
  - reflexivity.
  - cbn [forallb]. now rewrite fits_self, F.
Qed.

(** X17.  At the first record that is not a [dict], or has a key the first
    record has not, [write_csv] raises ([AttributeError], or [ValueError])
    with the file already overwritten: it holds the header and the rows of
    the records before that one, it is closed, nothing of the later records
    is written and the message is not printed. *)
Theorem write_csv_stops_at_the_first_unfit_record
    (w : window) (d : list (string * pyval)) (good more : list pyval)
    (bad : pyval) (path : string) :
  output_path w = Ok path ->
  may_write D path = true ->
  open_for_writing D path = Ok tt ->
  forallb (fits (map fst d)) good = true ->
  fits (map fst d) bad = false ->
  write_csv D w (PDict d :: good ++ bad :: more)
  = (Raise (match bad with
            | PDict _ => OtherError "ValueError"
            | _ => AttributeError
            end),
     (asked D path
      ++ Opened path
      :: RowWritten (map PStr (map fst d))
      :: map (fun r => RowWritten (row_of (map fst d) r)) (PDict d :: good)
      ++ [Closed path])%list).
Proof.
  intros Hp Hm Ho G B. rewrite (write_csv_allowed w _ _ path Hp Hm Ho).
  cbn [keys].
  change (PDict d :: good ++ bad :: more)%list
    with ((PDict d :: good) ++ bad :: more)%list.
  rewrite (rows_until_unfit (map fst d) (PDict d :: good) more bad).
  - reflexivity.
  - cbn [forallb]. now rewrite fits_self, G.
  - exact B.
Qed.

Lemma count_opened_app (a b : list effect) :
  count_opened (a ++ b) = count_opened a + count_opened b.
Proof. unfold count_opened. now rewrite filter_app, length_app. Qed.

Lemma count_closed_app (a b : list effect) :
  count_closed (a ++ b) = count_closed a + count_closed b.
Proof. unfold count_closed. now rewrite filter_app, length_app. Qed.

Lemma rows_open_nothing (t : list effect) (n : nat) :
  Forall (fun e => exists cells,
                     e = RowWritten cells /\ List.length cells = n) t ->
  count_opened t = 0 /\ count_closed t = 0
  /\ forall cells, In cells (rows_of t) -> List.length cells = n.
Proof.
  induction 1 as [|e t (cells & -> & L) _ (IO & IC & IR)].
  - repeat split. intros cells [].
  - unfold count_opened, count_closed in *. cbn [filter rows_of].
    split; [exact IO|]. split; [exact IC|].
    intros c [<-|Hc]; [exact L|now apply IR].
Qed.

Lemma asked_counts (path : string) :
  count_opened (asked D path) = 0 /\ count_closed (asked D path) = 0
  /\ rows_of (asked D path) = [].
Proof. unfold asked. destruct (path_exists D path); repeat split. Qed.

Lemma rows_of_app (a b : list effect) :
  rows_of (a ++ b) = (rows_of a ++ rows_of b)%list.
Proof.
  induction a as [|e a IH]; [reflexivity|].
  destruct e; cbn [app rows_of]; rewrite IH; reflexivity.
Qed.

(** [write_csv] in every case. *)
Lemma write_csv_cases (w : window) (results : list pyval) :
  (results = [] /\ write_csv D w results = (Ok tt, []))
  \/ (results <> [] /\ output_path w = Raise TypeError
      /\ write_csv D w results = (Raise TypeError, []))
  \/ (exists path,
        results <> [] /\ output_path w = Ok path /\ may_write D path = false
        /\ write_csv D w results
           = (Ok tt, [AskYesNo "File Exists" (overwrite_question path)]))
  \/ (exists path e,
        results <> [] /\ output_path w = Ok path /\ may_write D path = true
        /\ open_for_writing D path = Raise e
        /\ write_csv D w results = (Raise e, asked D path))
  \/ (exists path first rest,
        results = first :: rest /\ output_path w = Ok path
        /\ may_write D path = true /\ open_for_writing D path = Ok tt).
Proof.
  destruct results as [|first rest]; [left; auto|]. right.
  assert (Hne : first :: rest <> []) by discriminate.
  unfold write_csv, may_write, asked, overwrite_question.
  destruct (output_path w) as [path|e] eqn:Hp.
  - right. unfold then_ at 1. unfold value at 1.
    destruct (path_exists D path) eqn:PE;
      [destruct (askyesno D "File Exists" ("Overwrite " ++ path ++ "?")) eqn:A
      |].
    + right. destruct (open_for_writing D path) as [[]|e] eqn:Ho.
      * right. exists path, first, rest. rewrite PE, A. auto.
      * left. exists path, e. rewrite PE, A.
        repeat split; auto.
        unfold then_, perform, done, value, finally.
        rewrite ?PE, ?A. cbn [negb app]. rewrite Ho. reflexivity.
    + left. exists path. rewrite PE, A. repeat split; auto.
    + right. destruct (open_for_writing D path) as [[]|e] eqn:Ho.
      * right. exists path, first, rest. rewrite PE. auto.
      * left. exists path, e. rewrite PE.
        repeat split; auto.
        unfold then_, perform, done, value, finally.
        rewrite ?PE, ?A. cbn [negb app]. rewrite Ho. reflexivity.
  - left. unfold output_path in *.
    destruct (output_dir w), (output_file w); try discriminate;
      inversion Hp; subst; repeat split; auto.
Qed.

(** X18.  Whatever the records, the settings and the desktop, [write_csv]
    opens the output file at most once, and exactly when there is a record,
    the two output settings are strings, the file is absent or the user
    agrees to overwrite it, and the opening succeeds; a file it has opened
    it has closed, also when a record makes it raise. *)
Theorem write_csv_closes_what_it_opens (w : window) (results : list pyval) :
  count_closed (effects_of (write_csv D w results))
  = count_opened (effects_of (write_csv D w results))
  /\ count_opened (effects_of (write_csv D w results)) <= 1
  /\ (count_opened (effects_of (write_csv D w results)) = 1
      <-> results <> []
          /\ exists path,
               output_path w = Ok path /\ may_write D path = true
               /\ open_for_writing D path = Ok tt).
Proof.
  unfold effects_of.
  destruct (write_csv_cases w results)
    as [(-> & E)|[(Hn & Hp & E)|[(path & Hn & Hp & Hm & E)
       |[(path & e & Hn & Hp & Hm & Ho & E)|(path & first & rest & -> & Hp & Hm & Ho)]]]].
  - rewrite E. cbn. split; [reflexivity|]. split; [lia|].
    split; [discriminate|intros [H _]; congruence].
  - rewrite E. cbn. split; [reflexivity|]. split; [lia|].
    split; [discriminate|intros [_ (p & H & _)]; congruence].
  - rewrite E. cbn. split; [reflexivity|]. split; [lia|].
    split; [discriminate|intros [_ (p & H & H' & _)]; congruence].
  - rewrite E. cbn [snd]. destruct (asked_counts path) as (AO & AC & _).
    rewrite AO, AC. split; [reflexivity|]. split; [lia|].
    split; [discriminate|intros [_ (p & H & _ & H')]; congruence].
  - rewrite (write_csv_allowed w first rest path Hp Hm Ho).
    destruct (asked_counts path) as (AO & AC & _).
    assert (Goal :
      forall out,
        (exists o t tail,
            out = (o, (asked D path ++ Opened path :: t ++ Closed path :: tail)%list)
            /\ count_opened t = 0 /\ count_closed t = 0
            /\ count_opened tail = 0 /\ count_closed tail = 0) ->
        count_closed (snd (out : U unit)) = count_opened (snd out)
        /\ count_opened (snd out) = 1).
    { intros out (o & t & tail & -> & TO & TC & LO & LC). cbn [snd].
      rewrite count_opened_app, count_closed_app, AO, AC.
      change (Opened path :: t ++ Closed path :: tail)%list
        with ([Opened path] ++ t ++ [Closed path] ++ tail)%list.
      rewrite !count_opened_app, !count_closed_app, TO, TC, LO, LC.
      cbn. split; reflexivity. }
    match goal with
    | |- context [snd ?x] =>
        assert (G : count_closed (snd x) = count_opened (snd x)
                    /\ count_opened (snd x) = 1)
    end.
    { apply Goal.
      destruct (keys first) as [fn|e].
      - destruct (rows_open_nothing _ _ (rows_have_the_width fn (first :: rest)))
          as (RO & RC & _).
        destruct (for_rows (first :: rest) (write_row fn)) as [[[]|e] t];
          cbn [snd] in RO, RC.
        + eexists. exists (RowWritten (map PStr fn) :: t). eexists.
          split; [reflexivity|]. repeat split; assumption.
        + eexists. exists (RowWritten (map PStr fn) :: t), [].
          split; [reflexivity|]. repeat split; assumption.
      - eexists. exists [], []. split; [reflexivity|]. repeat split. }
    destruct G as [G1 G2]. split; [exact G1|]. split; [lia|].
    split; [intros _; split; [discriminate|exists path; auto]|intros _; exact G2].
Qed.

(** X19.  Every row [write_csv] writes, the header included, has as many
    cells as the first record has keys: a short record is filled up and a
    long one is refused, never written out of line. *)
Theorem write_csv_rows_have_the_width_of_the_header
    (w : window) (results : list pyval) (cells : list pyval) :
  In cells (rows_of (effects_of (write_csv D w results))) ->
  exists d rest,
    results = PDict d :: rest /\ List.length cells = List.length d.
Proof.
  unfold effects_of.
  destruct (write_csv_cases w results)
    as [(-> & E)|[(Hn & Hp & E)|[(path & Hn & Hp & Hm & E)
       |[(path & e & Hn & Hp & Hm & Ho & E)|(path & first & rest & -> & Hp & Hm & Ho)]]]];
    try (rewrite E; cbn [snd rows_of]; intros []).
  - rewrite E. cbn [snd]. destruct (asked_counts path) as (_ & _ & AR).
    rewrite AR. intros [].
  - rewrite (write_csv_allowed w first rest path Hp Hm Ho).
    destruct (asked_counts path) as (_ & _ & AR).
    destruct first as [| | | | |d]; cbn [keys snd];
      try (rewrite rows_of_app, AR; cbn [app rows_of]; intros []).
    destruct (rows_open_nothing _ _
                (rows_have_the_width (map fst d) (PDict d :: rest)))
      as (_ & _ & RW).
    destruct (for_rows (PDict d :: rest) (write_row (map fst d))) as [[[]|e] t];
      cbn [snd] in *; rewrite rows_of_app, AR; cbn [app rows_of];
      rewrite rows_of_app; cbn [rows_of]; rewrite app_nil_r;
      (intros [<-|Hc];
       [exists d, rest; split; [reflexivity|now rewrite !length_map]
       |exists d, rest; split; [reflexivity|];
        rewrite (RW cells Hc); apply length_map]).
Qed.

End Window.

(** ** From the batch to the file *)

(** [on_complete] goes through its statements in order and ends as
    [write_csv] does. *)
Lemma on_complete_unfold
    (D : MainWindow.desktop) (w : MainWindow.window)
    (results : list pyval) (tokens : tally) :
  MainWindow.on_complete D w results tokens
  = (fst (MainWindow.write_csv D w results),
     ([MainWindow.SetDisabled "process_files" false;
       MainWindow.ProgressStopped;
       MainWindow.ProgressValue 0;
       MainWindow.Printed "Processing complete";
       MainWindow.Printed
         ("Completion tokens: " ++ MainWindow.str_int (completion_tokens tokens));
       MainWindow.Printed
         ("Prompt tokens: " ++ MainWindow.str_int (prompt_tokens tokens))]
      ++ MainWindow.effects_of (MainWindow.write_csv D w results))%list).
Proof.
  unfold MainWindow.on_complete, MainWindow.then_, MainWindow.perform,
    MainWindow.effects_of.
  destruct (MainWindow.write_csv D w results) as [o t]. reflexivity.
Qed.

(** X20.  A batch of readable images, run from a manager just built and
    given the window's [on_complete] as its completion callback, ends with
    one call of the callback, given the records of the files in order and
    the sum of the usage reported; [on_complete], given these and a CSV file
    it can write, enables the button again, stops and resets the progress
    bar, prints the two totals it was given, and then writes the file. *)
Theorem on_complete_receives_the_records_and_the_totals
    (W : world) (D : MainWindow.desktop) (w : MainWindow.window) (s : manager) :
  (forall results tokens,
      callback_outcome W results tokens
      = fst (MainWindow.on_complete D w results tokens)) ->
  1 <= num_requests s ->
  num_requests s = List.length (files s) ->
  completed_requests s = 0 ->
  results s = [] ->
  tokens s = zero ->
  (forall f, In f (files s) -> readable W (directory s) f) ->
  (forall f body,
      In f (files s) -> response W (directory s) (api_key s) f = Ok body ->
      reported body "completion_tokens" <> None ->
      reported body "prompt_tokens" <> None) ->
  fst (MainWindow.write_csv D w
         (flat_map (recorded_for W (directory s) (api_key s)) (files s)))
  = Ok tt ->
  exists s' before,
    _process_files W s = (Ok tt, s')
    /\ completions before = 0
    /\ out s' =
       (out s ++ before
        ++ [Completion
              (flat_map (recorded_for W (directory s) (api_key s)) (files s))
              (total_usage W (directory s) (api_key s) (files s))])%list
    /\ MainWindow.on_complete D w
         (flat_map (recorded_for W (directory s) (api_key s)) (files s))
         (total_usage W (directory s) (api_key s) (files s))
       = (Ok tt,
          ([MainWindow.SetDisabled "process_files" false;
            MainWindow.ProgressStopped;
            MainWindow.ProgressValue 0;
            MainWindow.Printed "Processing complete";
            MainWindow.Printed
              ("Completion tokens: "
               ++ MainWindow.str_int
                    (completion_tokens
                       (total_usage W (directory s) (api_key s) (files s))));
            MainWindow.Printed
              ("Prompt tokens: "
               ++ MainWindow.str_int
                    (prompt_tokens
                       (total_usage W (directory s) (api_key s) (files s))))]
           ++ MainWindow.effects_of
                (MainWindow.write_csv D w
                   (flat_map (recorded_for W (directory s) (api_key s))
                      (files s))))%list).
Proof.
  intros Hcb Hn Hlen Hc Hres Htok Hr Hu Hw.
  destruct (fresh_batch_spec W s Hn Hlen Hc Hr)
    as (r & s' & before & after & E & R & O & Hb & Ha & Nb & End).
  pose proof (tally_after_files W (files s) s Hr Hu) as T.
  unfold _process_files, bind, get in E. cbn [fst snd] in E.
  rewrite E in T. cbn [snd] in T.
  rewrite Hres in R. cbn [app] in R.
  assert (T' : tokens s' = total_usage W (directory s) (api_key s) (files s)).
  { rewrite T by (right; lia). rewrite Htok. unfold tally_add, zero. cbn.
    now destruct (total_usage W (directory s) (api_key s) (files s)). }
  rewrite R, T' in End, O.
  rewrite Hcb, on_complete_unfold in End. cbn [fst] in End. rewrite Hw in End.
  destruct End as (-> & -> & C).
  exists s', before.
  split; [exact E|]. split; [exact Hb|]. split; [exact O|].
  rewrite on_complete_unfold, Hw. reflexivity.
Qed.

(** ** The further properties at concrete inputs *)

Lemma collect_files_keeps_the_names_with_an_extension_witness :
  exists s,
    __init__ mixed_case_world "d" "k" = (Ok tt, s)
    /\ files s = ["b.png"] /\ num_requests s = 1.
Proof.
  destruct (collect_files_keeps_the_names_with_an_extension
              mixed_case_world "d" "k" ["A.JPG"; "b.png"; "c.txt"; "d"] eq_refl)
    as (s & E & F & N & _).
  exists s. split; [exact E|]. rewrite N, F. split; reflexivity.
Defined.

Lemma scan_files_ignores_the_case_witness :
  scan_files mixed_case_world "d" = Ok ["d/A.JPG"; "d/b.png"]
  /\ scan_files lower_case_world "d" = Ok ["d/a.jpg"; "d/b.png"].
Proof.
  destruct (scan_files_ignores_the_case mixed_case_world lower_case_world "d"
              ["A.JPG"; "b.png"; "c.txt"; "d"] ["a.jpg"; "b.png"; "c.txt"; "d"]
              eq_refl eq_refl eq_refl)
    as (E & E' & _).
  split; [rewrite E|rewrite E']; reflexivity.
Defined.

Lemma collected_files_are_scanned_witness :
  exists s found,
    __init__ flaky_world "d" "k" = (Ok tt, s)
    /\ scan_files flaky_world "d" = Ok found
    /\ forall f, In f (files s) -> In (path_join "d" f) found.
Proof.
  apply (collected_files_are_scanned flaky_world "d" "k" ["a.jpg"; "b.jpg"]).
  - reflexivity.
  - intros [H|[H|[]]]; discriminate.
  - intros [H|[H|[]]]; discriminate.
  - intros [H|[H|[]]]; discriminate.
Defined.

Lemma callback_fires_at_most_once_witness :
  for_each [Lit "a"; Lit "b"; Lit "c"] (request_complete flaky_world) flaky_start
  = (Ok tt, notify_all flaky_world [Lit "a"; Lit "b"; Lit "c"] flaky_start)
  /\ completed_requests (notify_all flaky_world [Lit "a"; Lit "b"; Lit "c"] flaky_start)
     = 3
  /\ completions (out (notify_all flaky_world [Lit "a"; Lit "b"; Lit "c"] flaky_start))
     = 1.
Proof.
  destruct (callback_fires_at_most_once flaky_world [Lit "a"; Lit "b"; Lit "c"]
              flaky_start) as (C & _ & O & F).
  split; [apply F; intros r t; reflexivity|].
  split; [exact C|exact O].
Defined.

Lemma uneven_files_readable :
  forall f, In f ["a.jpg"; "b.jpg"] -> readable uneven_world "d" f.
Proof.
  intros f [<-|[<-|[]]]; eexists; reflexivity.
Defined.

Lemma results_follow_the_files_witness :
  exists r s',
    _process_files uneven_world uneven_start = (r, s')
    /\ results s' = [ab_dict; abcd_dict]
    /\ 2 <= completed_requests s' <= 3.
Proof.
  destruct (results_follow_the_files uneven_world uneven_start uneven_files_readable)
    as (r & s' & E & R & C & _).
  - right. vm_compute. lia.
  - exists r, s'. split; [exact E|]. split; [rewrite R; reflexivity|exact C].
Defined.

Lemma progress_is_reported_per_file_and_per_record_witness :
  exists r s' added,
    for_each ["a.jpg"; "b.jpg"] (process_file flaky_world) flaky_start = (r, s')
    /\ out s' = (out flaky_start ++ added)%list
    /\ List.length (filter is_progress added)
       = 2 + (List.length (results s') - List.length (results flaky_start))
    /\ 2 <= List.length (filter is_notice added) <= 3
    /\ completed_requests s' =
       completed_requests flaky_start + List.length (filter is_notice added)
    /\ (callback_returns flaky_world ->
        r = Ok tt /\ List.length (filter is_notice added) = 2).
Proof.
  apply (progress_is_reported_per_file_and_per_record
           flaky_world ["a.jpg"; "b.jpg"] flaky_start).
  - exact flaky_files_readable.
  - left. intros r t. reflexivity.
Defined.

Lemma a_readable_file_is_processed_or_reported_witness :
  exists r s',
    process_file flaky_world "a.jpg" flaky_start = (r, s')
    /\ results s' = [].
Proof.
  destruct (a_readable_file_is_processed_or_reported flaky_world "a.jpg" flaky_start)
    as (r & s' & middle & tail & E & R & _).
  - apply flaky_files_readable. now left.
  - exists r, s'. split; [exact E|]. rewrite R. reflexivity.
Defined.

Lemma the_batch_stops_at_the_first_unreadable_image_witness :
  exists s1,
    for_each ["a.jpg"] (process_file late_unreadable_world) late_unreadable_start
    = (Ok tt, s1)
    /\ _process_files late_unreadable_world late_unreadable_start
       = (Raise OSError, emit (Progress (Lit "Processing b.jpg...")) s1)
    /\ completed_requests s1 = 1
    /\ completions (out s1) = 0.
Proof.
  apply (the_batch_stops_at_the_first_unreadable_image
           late_unreadable_world late_unreadable_start ["a.jpg"] ["c.jpg"] "b.jpg"
           OSError).
  - reflexivity.
  - reflexivity.
  - reflexivity.
  - intros g [<-|[]]. eexists. reflexivity.
  - reflexivity.
Defined.

Lemma parser_strips_the_letters_of_json_witness :
  parse_openai_json_result flaky_world (envelope (fenced ab_text) 5 7) flaky_start
  = parse_openai_json_result picky_world (envelope (fenced ab_text) 5 7) flaky_start.
Proof.
  apply (parser_strips_the_letters_of_json flaky_world picky_world).
  intros txt H. unfold picky_world. cbn [json_loads]. rewrite H. reflexivity.
Defined.

Lemma text_around_the_code_block_is_ignored_witness :
  parse_openai_json_result flaky_world (envelope chatty_content 5 7) flaky_start
  = (Ok ab_dict, flaky_start).
Proof.
  rewrite (text_around_the_code_block_is_ignored flaky_world
             (envelope chatty_content 5 7)
             ("Here is the form:" ++ nl) ("json" ++ nl ++ ab_text ++ nl)
             (fence ++ nl ++ "Anything else?") flaky_start).
  - reflexivity.
  - reflexivity.
  - reflexivity.
  - right. eexists. reflexivity.
  - apply first_choice_message_content. reflexivity.
Defined.

Lemma decoded_record_is_appended_and_tallied_witness :
  exists s',
    process_result flaky_world "d/b.jpg" (envelope (fenced ab_text) 5 7) flaky_start
    = (Ok tt, s')
    /\ results s' = [ab_dict]
    /\ tokens s' = {| prompt_tokens := 5; completion_tokens := 7 |}.
Proof.
  destruct (decoded_record_is_appended_and_tallied
              flaky_world "d/b.jpg" (envelope (fenced ab_text) 5 7)
              (fenced ab_text) ab_text ab_dict 5 7 flaky_start)
    as (s' & E & R & T & _).
  - reflexivity.
  - reflexivity.
  - apply first_choice_message_content. reflexivity.
  - reflexivity.
  - reflexivity.
  - exists s'. split; [exact E|]. split; [exact R|exact T].
Defined.

Lemma completion_count_stays_when_the_prompt_count_is_missing_witness :
  exists e s',
    process_result flaky_world "d/b.jpg" half_usage flaky_start = (Raise e, s')
    /\ tokens s' = {| prompt_tokens := 0; completion_tokens := 7 |}
    /\ results s' = []
    /\ out s' = [].
Proof.
  apply (completion_count_stays_when_the_prompt_count_is_missing
           flaky_world "d/b.jpg" half_usage 7 flaky_start); reflexivity.
Defined.

Lemma write_csv_needs_the_fields_of_the_first_record_witness :
  fst (MainWindow.write_csv clean_desktop ready_window even_records) = Ok tt
  /\ fst (MainWindow.write_csv clean_desktop ready_window uneven_records) <> Ok tt.
Proof.
  split.
  - apply (write_csv_needs_the_fields_of_the_first_record
             clean_desktop ready_window
             (PDict [("first_name", PStr "Ada"); ("email", PStr "ada@example.org")])
             [PDict [("first_name", PStr "Bob")]] "out/contacts.csv");
      try reflexivity.
    eexists. split; reflexivity.
  - intros H.
    apply (write_csv_needs_the_fields_of_the_first_record
             clean_desktop ready_window
             (PDict [("first_name", PStr "Ada")])
             [PDict [("first_name", PStr "Bob")];
              PDict [("first_name", PStr "Cy"); ("city", PStr "Oslo")];
              PDict [("first_name", PStr "Di")]] "out/contacts.csv")
      in H; try reflexivity.
    destruct H as (d & Hd & F). inversion Hd; subst d. discriminate F.
Defined.

Lemma write_csv_writes_one_row_per_record_witness :
  MainWindow.write_csv clean_desktop ready_window even_records
  = (Ok tt,
     [MainWindow.Opened "out/contacts.csv";
      MainWindow.RowWritten [PStr "first_name"; PStr "email"];
      MainWindow.RowWritten [PStr "Ada"; PStr "ada@example.org"];
      MainWindow.RowWritten [PStr "Bob"; PStr EmptyString];
      MainWindow.Closed "out/contacts.csv";
      MainWindow.Printed "Results written to out/contacts.csv"]).
Proof.
  apply (write_csv_writes_one_row_per_record clean_desktop ready_window
           [("first_name", PStr "Ada"); ("email", PStr "ada@example.org")]
           [PDict [("first_name", PStr "Bob")]] "out/contacts.csv");
    reflexivity.
Defined.

Lemma write_csv_stops_at_the_first_unfit_record_witness :
  MainWindow.write_csv clean_desktop ready_window uneven_records
  = (Raise (OtherError "ValueError"),
     [MainWindow.Opened "out/contacts.csv";
      MainWindow.RowWritten [PStr "first_name"];
      MainWindow.RowWritten [PStr "Ada"];
      MainWindow.RowWritten [PStr "Bob"];
      MainWindow.Closed "out/contacts.csv"]).
Proof.
  apply (write_csv_stops_at_the_first_unfit_record clean_desktop ready_window
           [("first_name", PStr "Ada")]
           [PDict [("first_name", PStr "Bob")]]
           [PDict [("first_name", PStr "Di")]]
           (PDict [("first_name", PStr "Cy"); ("city", PStr "Oslo")])
           "out/contacts.csv");
    reflexivity.
Defined.

Lemma write_csv_rows_have_the_width_of_the_header_witness :
  exists d rest,
    even_records = PDict d :: rest
    /\ List.length [PStr "Bob"; PStr EmptyString] = List.length d.
Proof.
  apply (write_csv_rows_have_the_width_of_the_header
           clean_desktop ready_window even_records).
  vm_compute. right. right. left. reflexivity.
Defined.

Lemma on_complete_receives_the_records_and_the_totals_witness :
  exists s' before,
    _process_files flaky_window_world flaky_start = (Ok tt, s')
    /\ completions before = 0
    /\ out s' =
       (out flaky_start ++ before
        ++ [Completion [ab_dict] {| prompt_tokens := 5; completion_tokens := 7 |}])%list
    /\ MainWindow.on_complete clean_desktop two_files_window [ab_dict]
         {| prompt_tokens := 5; completion_tokens := 7 |}
       = (Ok tt,
          [MainWindow.SetDisabled "process_files" false;
           MainWindow.ProgressStopped;
           MainWindow.ProgressValue 0;
           MainWindow.Printed "Processing complete";
           MainWindow.Printed "Completion tokens: 7";
           MainWindow.Printed "Prompt tokens: 5";
           MainWindow.Opened "out/contacts.csv";
           MainWindow.RowWritten [PStr "a"];
           MainWindow.RowWritten [PStr "b"];
           MainWindow.Closed "out/contacts.csv";
           MainWindow.Printed "Results written to out/contacts.csv"]).
Proof.
  apply (on_complete_receives_the_records_and_the_totals
           flaky_window_world clean_desktop two_files_window flaky_start).
  - intros r t. reflexivity.
  - vm_compute. lia.
  - reflexivity.
  - reflexivity.
  - reflexivity.
  - reflexivity.
  - exact flaky_files_readable.
  - intros f body [<-|[<-|[]]] H; vm_compute in H; [discriminate|].
    inversion H; subst body. vm_compute. discriminate.
  - reflexivity.
Defined.
